(** * envalid: the validation core ([cleanEnv], [validateVar], [testOnly])

    A shallow embedding of the TypeScript module that validates a flat
    environment against a table of specs, followed by the properties of
    the specification that concern it.

    Conventions of the embedding.
    - JavaScript values are the type [value].  A number is kept as its
      canonical rendering (what ToString gives for it), which identifies
      it up to the sign of zero.  An object that is not one of the
      primitives is a reference compared by identity, together with what
      its conversion to a string does.
    - A plain object used as a dictionary is a [gmap string _]; reading a
      missing property gives [VUndefined].  The environment map holds
      what [env[k]] reads for each key.  The [specs] argument, whose
      enumeration order matters, is the list of its own properties in
      [Object.keys] order.  Keys are ordinary property names, and objects
      have data properties only.
    - A callback supplied by the caller (a spec's [_parse], a reporter, a
      middleware stage) is a function of its arguments that returns or
      throws; it does not mutate the objects it is handed.
    - Every call of a callback is logged as an [event], so that "is
      invoked", "is evaluated" and "in this order" are statements about
      the log. *)

From stdpp Require Import gmap strings list.

(** ** JavaScript values and what can be thrown *)

(** A value; the outcome of converting an object to a string, which is a
    text or whatever the conversion throws; and what can be thrown: an
    instance of one of the two classes of [./errors], told apart by the
    constructor that made it, a TypeError, or any other value. *)
Inductive value : Type :=
  | VUndefined
  | VNull
  | VBool (b : bool)
  | VNum (text : string)
  | VNaN
  | VStr (s : string)
  | VSymbol (id : nat)
  | VObj (addr : nat) (str : conversion)
with conversion : Type :=
  | Renders (s : string)
  | Fails (e : error)
with error : Type :=
  | EnvError (msg : string)
  | EnvMissingError (msg : string)
  | TypeError (msg : string)
  | Thrown (v : value).

Lemma value_eq_decidable (a b : value) : {a = b} + {a ≠ b}
with conversion_eq_decidable (a b : conversion) : {a = b} + {a ≠ b}
with error_eq_decidable (a b : error) : {a = b} + {a ≠ b}.
Proof.
  - decide equality;
      solve [apply bool_eq_dec | apply String.eq_dec | apply Nat.eq_dec].
  - decide equality; apply String.eq_dec.
  - decide equality; apply String.eq_dec.
Defined.

Global Instance value_eq_dec : EqDecision value := value_eq_decidable.
Global Instance error_eq_dec : EqDecision error := error_eq_decidable.

(** [a === b] *)
Definition strict_eq (a b : value) : bool :=
  match a, b with
  | VNaN, _ | _, VNaN => false
  | _, _ => bool_decide (a = b)
  end.

(** SameValueZero, the comparison of [Array.prototype.includes] *)
Definition same_value_zero (a b : value) : bool := bool_decide (a = b).

(** [v == null] *)
Definition is_nullish (v : value) : bool :=
  match v with
  | VUndefined | VNull => true
  | _ => false
  end.

(** ToBoolean; the numbers that are falsy are the two zeros, rendered
    [0], and [NaN]. *)
Definition truthy (v : value) : bool :=
  match v with
  | VUndefined | VNull | VNaN => false
  | VBool b => b
  | VNum text => negb (String.eqb text "0")
  | VStr s => negb (String.eqb s "")
  | VSymbol _ | VObj _ _ => true
  end.

(** [a ?? b] *)
Definition nullish_coalesce (a b : value) : value :=
  if is_nullish a then b else a.

(** ** Completions *)

Inductive result (A : Type) : Type :=
  | Ok (a : A)
  | Throw (e : error).
Arguments Ok {A} a.
Arguments Throw {A} e.

Definition is_Throw {A} (r : result A) : bool :=
  match r with
  | Throw _ => true
  | Ok _ => false
  end.

Definition symbol_to_string_error : error :=
  TypeError "Cannot convert a Symbol value to a string".

(** ToString, as a template literal applies it.  A symbol has no string
    conversion: the conversion throws a TypeError.  An object renders as,
    or throws, what its conversion does. *)
Definition to_string (v : value) : result string :=
  match v with
  | VUndefined => Ok "undefined"
  | VNull => Ok "null"
  | VBool true => Ok "true"
  | VBool false => Ok "false"
  | VNum text => Ok text
  | VNaN => Ok "NaN"
  | VStr s => Ok s
  | VSymbol _ => Throw symbol_to_string_error
  | VObj _ (Renders s) => Ok s
  | VObj _ (Fails e) => Throw e
  end.

(** [Array.prototype.join] with the default separator: [null] and
    [undefined] elements are rendered empty, and the elements are
    converted from left to right. *)
Definition join_element (v : value) : result string :=
  if is_nullish v then Ok "" else to_string v.

Fixpoint array_join (l : list value) : result string :=
  match l with
  | [] => Ok ""
  | [v] => join_element v
  | v :: rest =>
      match join_element v with
      | Throw e => Throw e
      | Ok s =>
          match array_join rest with
          | Throw e => Throw e
          | Ok r => Ok (s +:+ "," +:+ r)
          end
      end
  end.

(** The double quote character, for the messages. *)
Definition dq : string := String (Ascii.ascii_of_nat 34) EmptyString.

(** ** Specs *)

(** The [_parse] property of a spec: any value that is not a function, or
    a function that returns a value or throws. *)
Inductive parse_field : Type :=
  | NotFunction (v : value)
  | Function (f : value → result value).

(** The [choices] property when the spec has it: an array, or any other
    value. *)
Inductive choices_field : Type :=
  | Array (l : list value)
  | NotArray (v : value).

(** An optional property is [None] when the spec has no such own
    property, and [Some v] when it has, also when [v] is [VUndefined]. *)
Record Spec : Type := {
  spec_parse : parse_field;
  spec_default : option value;
  spec_devDefault : option value;
  spec_choices : option choices_field;
  spec_desc : option string;
  spec_example : option string;
  spec_docs : option string;
}.

(** Reading a property that may be missing. *)
Definition prop (o : option value) : value := default VUndefined o.

(** [spec.hasOwnProperty(...)] *)
Definition hasOwnProperty {A} (o : option A) : bool :=
  match o with
  | Some _ => true
  | None => false
  end.

(** Truthiness of [spec.choices]; an array is an object. *)
Definition choices_truthy (c : option choices_field) : bool :=
  match c with
  | None => false
  | Some (Array _) => true
  | Some (NotArray v) => truthy v
  end.

(** [`${spec.choices}`] *)
Definition choices_to_string (c : choices_field) : result string :=
  match c with
  | Array l => array_join l
  | NotArray v => to_string v
  end.

(** ** Events *)

Inductive reporter_id : Type :=
  | DefaultReporter
  | CustomReporter.

Inductive event : Type :=
  | EvParse (name : string) (raw : value)
  | EvReport (who : reporter_id)
      (errors : gmap string error) (env : gmap string value)
  | EvMiddleware (stage : nat)
      (acc : gmap string value) (rawEnv : gmap string value).

Definition is_report (e : event) : bool :=
  match e with
  | EvReport _ _ _ => true
  | _ => false
  end.

(** ** validateVar *)

Definition testOnlySymbol : value := VSymbol 0.

Definition validateVar (name : string) (spec : Spec) (rawValue : value)
  : list event * result value :=
  match spec_parse spec with
  | NotFunction _ =>
      ([], Throw (EnvError ("Invalid spec for " +:+ dq +:+ name +:+ dq)))
  | Function _parse =>
      let tr := [EvParse name rawValue] in
      match _parse rawValue with
      | Throw e => (tr, Throw e)
      | Ok value =>
          let checked : result unit :=
            if choices_truthy (spec_choices spec) then
              match spec_choices spec with
              | Some (Array choices) =>
                  if existsb (λ c, same_value_zero c value) choices
                  then Ok ()
                  else
                    match to_string value with
                    | Throw e => Throw e
                    | Ok v =>
                        match array_join choices with
                        | Throw e => Throw e
                        | Ok cs =>
                            Throw (EnvError ("Value " +:+ dq +:+ v +:+ dq
                                             +:+ " not in choices ["
                                             +:+ cs +:+ "]"))
                        end
                    end
              | _ =>
                  Throw (TypeError (dq +:+ "choices" +:+ dq
                                    +:+ " must be an array (in spec for "
                                    +:+ dq +:+ name +:+ dq +:+ ")"))
              end
            else Ok ()
          in
          match checked with
          | Throw e => (tr, Throw e)
          | Ok _ =>
              if is_nullish value
              then (tr, Throw (EnvError ("Invalid value for env var "
                                         +:+ dq +:+ name +:+ dq)))
              else (tr, Ok value)
          end
      end
  end.

(** ** formatSpecDescription *)

Definition formatSpecDescription (spec : Spec) : string :=
  let egText :=
    match spec_example spec with
    | Some e => if String.eqb e "" then "" else " (eg. " +:+ dq +:+ e +:+ dq +:+ ")"
    | None => ""
    end in
  let docsText :=
    match spec_docs spec with
    | Some d => if String.eqb d "" then "" else ". See " +:+ d
    | None => ""
    end in
  default "undefined" (spec_desc spec) +:+ egText +:+ docsText.

(** ** The environment and the resolution of a key's raw value *)

(** [(env as any)[k]] *)
Definition readRawEnvValue (env : gmap string value) (k : string) : value :=
  prop (env !! k).

Definition isTestOnlySymbol (v : value) : bool := strict_eq v testOnlySymbol.

Section Resolution.
Variable environment : gmap string value.
Variable rawNodeEnv : value.
Variable k : string.
Variable spec : Spec.

Definition usingDevDefault : bool :=
  negb (strict_eq rawNodeEnv (VStr "production"))
  && hasOwnProperty (spec_devDefault spec).

Definition devDefault : value :=
  if usingDevDefault then prop (spec_devDefault spec) else VUndefined.

Definition rawValue : value :=
  nullish_coalesce (readRawEnvValue environment k)
    (if strict_eq devDefault VUndefined
     then prop (spec_default spec)
     else devDefault).

Definition usingFalsyDefault : bool :=
  (hasOwnProperty (spec_default spec)
   && strict_eq (prop (spec_default spec)) rawValue)
  || (usingDevDefault && strict_eq devDefault rawValue).

(** The body of the [try] block of one iteration: [Ok (Some v)] when
    [output[k]] is assigned [v], [Ok None] when the block completes
    without assigning. *)
Definition try_block : list event * result (option value) :=
  if isTestOnlySymbol rawValue then
    ([], Throw (EnvMissingError (formatSpecDescription spec)))
  else if strict_eq rawValue VUndefined then
    if negb usingFalsyDefault
    then ([], Throw (EnvMissingError (formatSpecDescription spec)))
    else ([], Ok None)
  else
    match validateVar k spec rawValue with
    | (tr, Ok v) => (tr, Ok (Some v))
    | (tr, Throw e) => (tr, Throw e)
    end.
End Resolution.

(** ** Reporters, middleware and options *)

Record ReporterInput : Type := {
  errors : gmap string error;
  env : gmap string value;
}.

(** What a reporter call does to the caller: it returns (its value is
    ignored), throws, or ends the process. *)
Inductive reporter_outcome : Type :=
  | Returns
  | Throws (e : error)
  | Exits (code : Z).

Definition Reporter : Type := ReporterInput → reporter_outcome.

Definition Middleware : Type :=
  gmap string value → gmap string value → result (gmap string value).

(** [options.reporter]: missing, [null], or a function. *)
Inductive reporter_field : Type :=
  | ReporterUndefined
  | ReporterNull
  | ReporterFunction (f : Reporter).

Record CleanOptions : Type := {
  reporter : reporter_field;
  middleware : option (list Middleware);
}.

(** [options.reporter === null] *)
Definition reporter_is_null (o : CleanOptions) : bool :=
  match reporter o with
  | ReporterNull => true
  | _ => false
  end.

(** ** The validation loop *)

(** [for (const k of varKeys) { ... try { ... } catch (err) { ... } }],
    started from the given [output] and [errors]. *)
Fixpoint validation_loop (options : CleanOptions)
    (environment : gmap string value) (rawNodeEnv : value)
    (specs : list (string * Spec))
    (output : gmap string value) (errs : gmap string error)
  : list event * result (gmap string value * gmap string error) :=
  match specs with
  | [] => ([], Ok (output, errs))
  | (k, spec) :: rest =>
      match try_block environment rawNodeEnv k spec with
      | (tr, Ok (Some v)) =>
          let '(tr', r) :=
            validation_loop options environment rawNodeEnv rest
              (<[k := v]> output) errs in
          (tr ++ tr', r)
      | (tr, Ok None) =>
          let '(tr', r) :=
            validation_loop options environment rawNodeEnv rest output errs in
          (tr ++ tr', r)
      | (tr, Throw err) =>
          if reporter_is_null options then (tr, Throw err)
          else
            let '(tr', r) :=
              validation_loop options environment rawNodeEnv rest
                output (<[k := err]> errs) in
            (tr ++ tr', r)
      end
  end.

(** [options.middleware.reduce((acc, mw) => mw(acc, environment), output)];
    [stage] is the index of the first stage of [mws]. *)
Fixpoint reduce_middleware (stage : nat) (mws : list Middleware)
    (environment : gmap string value) (acc : gmap string value)
  : list event * result (gmap string value) :=
  match mws with
  | [] => ([], Ok acc)
  | mw :: rest =>
      match mw acc environment with
      | Throw e => ([EvMiddleware stage acc environment], Throw e)
      | Ok acc' =>
          let '(tr, r) := reduce_middleware (S stage) rest environment acc' in
          (EvMiddleware stage acc environment :: tr, r)
      end
  end.

(** ** Plain objects *)

(** A plain object: its own data properties, those of them that are not
    writable, and whether properties can be added to it.  Its prototype
    is [Object.prototype]. *)
Record jsobject : Type := {
  props : gmap string value;
  readonly : gset string;
  extensible : bool;
}.

(** The object literal with these properties. *)
Definition plain_object (o : gmap string value) : jsobject :=
  {| props := o; readonly := ∅; extensible := true |}.

(** [Object.freeze] of the plain object with these own properties: every
    own property becomes read-only and the object stops being
    extensible. *)
Definition Object_freeze (o : gmap string value) : jsobject :=
  {| props := o; readonly := dom o; extensible := false |}.

(** [o[k]]: the own property, or else what the prototype holds under
    [k]; [inherited] is the content of [Object.prototype]. *)
Definition get (inherited : gmap string value) (o : jsobject) (k : string)
  : value :=
  match props o !! k with
  | Some v => v
  | None => prop (inherited !! k)
  end.

(** [o[k] = v] for an ordinary key, evaluated by code that is in strict
    mode or not.  An own property is written when it is writable, a new
    one is added when the object is extensible; otherwise the assignment
    is refused, silently in sloppy code and with a TypeError in strict
    code (the texts are those of V8). *)
Definition assign (strict : bool) (o : jsobject) (k : string) (v : value)
  : result jsobject :=
  let written :=
    {| props := <[k := v]> (props o);
       readonly := readonly o;
       extensible := extensible o |} in
  match props o !! k with
  | Some _ =>
      if bool_decide (k ∈ readonly o) then
        if strict
        then Throw (TypeError ("Cannot assign to read only property '"
                               +:+ k +:+ "' of object '#<Object>'"))
        else Ok o
      else Ok written
  | None =>
      if extensible o then Ok written
      else if strict
      then Throw (TypeError ("Cannot add property " +:+ k
                             +:+ ", object is not extensible"))
      else Ok o
  end.

(** The object a caller holds after attempting [o[k] = v]. *)
Definition after_assign (strict : bool) (o : jsobject) (k : string) (v : value)
  : jsobject :=
  match assign strict o k v with
  | Ok o' => o'
  | Throw _ => o
  end.

(** ** cleanEnv *)

Inductive outcome (A : Type) : Type :=
  | Returned (a : A)
  | Raised (e : error)
  | Exited (code : Z).
Arguments Returned {A} a.
Arguments Raised {A} e.
Arguments Exited {A} code.

Section CleanEnv.
(** The two imports of the module that are not part of it. *)
Variable defaultReporter : Reporter.
Variable defaultMiddlewares : list Middleware.

(** [options: CleanOptions<T> = { middleware: defaultMiddlewares }] *)
Definition default_options : CleanOptions :=
  {| reporter := ReporterUndefined; middleware := Some defaultMiddlewares |}.

(** [options.reporter || defaultReporter], with the tag logged for it *)
Definition chosen_reporter (options : CleanOptions) : reporter_id * Reporter :=
  match reporter options with
  | ReporterFunction f => (CustomReporter, f)
  | ReporterUndefined | ReporterNull => (DefaultReporter, defaultReporter)
  end.

(** [if (options.middleware?.length) { output = ...reduce... }] *)
Definition apply_middleware (options : CleanOptions)
    (environment : gmap string value) (output : gmap string value)
  : list event * result (gmap string value) :=
  match middleware options with
  | Some (mw :: mws) => reduce_middleware 0 (mw :: mws) environment output
  | Some [] | None => ([], Ok output)
  end.

(** The third argument is [None] when the caller passes no options. *)
Definition cleanEnv (environment : gmap string value)
    (specs : list (string * Spec)) (opts : option CleanOptions)
  : list event * outcome jsobject :=
  let options := default default_options opts in
  let rawNodeEnv := readRawEnvValue environment "NODE_ENV" in
  match validation_loop options environment rawNodeEnv specs ∅ ∅ with
  | (tr, Throw err) => (tr, Raised err)
  | (tr, Ok (output, errs)) =>
      let '(who, report) := chosen_reporter options in
      let tr := tr ++ [EvReport who errs output] in
      match report {| errors := errs; env := output |} with
      | Throws e => (tr, Raised e)
      | Exits code => (tr, Exited code)
      | Returns =>
          match apply_middleware options environment output with
          | (tr', Throw e) => (tr ++ tr', Raised e)
          | (tr', Ok output') => (tr ++ tr', Returned (Object_freeze output'))
          end
      end
  end.
End CleanEnv.

(** ** testOnly *)

(** [process.env], which [testOnly] reads, holds strings only. *)
Definition testOnly (process_env : gmap string string)
    (defaultValueForTests : value) : value :=
  if bool_decide (process_env !! "NODE_ENV" = Some "test")
  then defaultValueForTests
  else testOnlySymbol.

(** ** Notions used to state the properties *)


(** The declared default that the default/dev-default mechanism resolves
    to: the dev-default when it is in use and not [undefined], otherwise
    the declared [default], otherwise a dev-default in use that was
    declared [undefined]. *)
Definition resolved_default (rawNodeEnv : value) (spec : Spec) : option value :=
  if usingDevDefault rawNodeEnv spec
     && negb (strict_eq (devDefault rawNodeEnv spec) VUndefined)
  then spec_devDefault spec
  else
    match spec_default spec with
    | Some d => Some d
    | None => if usingDevDefault rawNodeEnv spec then Some VUndefined else None
    end.

(** Whether the [choices] check of [validateVar] lets the value through
    without throwing. *)
Definition choices_accept (c : option choices_field) (v : value) : bool :=
  match c with
  | None => true
  | Some (NotArray x) => negb (truthy x)
  | Some (Array l) => existsb (λ c, same_value_zero c v) l
  end.

(** What the [try] block of a key does once its raw value is handed to
    [validateVar]. *)
Definition validated (r : list event * result value)
  : list event * result (option value) :=
  match r with
  | (tr, Ok v) => (tr, Ok (Some v))
  | (tr, Throw e) => (tr, Throw e)
  end.

(** The events of one iteration of the loop. *)
Definition key_events (environment : gmap string value) (rawNodeEnv : value)
    (ks : string * Spec) : list event :=
  fst (try_block environment rawNodeEnv ks.1 ks.2).

(** Where a key stands in the two maps after the loop, given where it
    stood before and what its [try] block did. *)
Definition settled (r : result (option value)) (k : string)
    (output0 output : gmap string value) (errs0 errs : gmap string error)
  : Prop :=
  match r with
  | Ok (Some v) => output !! k = Some v ∧ errs !! k = errs0 !! k
  | Ok None => output !! k = output0 !! k ∧ errs !! k = errs0 !! k
  | Throw e => output !! k = output0 !! k ∧ errs !! k = Some e
  end.

(** The stages of a middleware sequence as a left fold that stops at the
    first stage that throws. *)
Definition pipeline (mws : list Middleware) (environment : gmap string value)
    (acc : gmap string value) : result (gmap string value) :=
  foldl (λ r mw, match r with
                 | Ok a => mw a environment
                 | Throw e => Throw e
                 end) (Ok acc) mws.

(** ** Sample inputs *)

Module Samples.
Definition plain (parse : parse_field) : Spec :=
  {| spec_parse := parse;
     spec_default := None;
     spec_devDefault := None;
     spec_choices := None;
     spec_desc := None;
     spec_example := None;
     spec_docs := None |}.

Definition with_default (d : value) (s : Spec) : Spec :=
  {| spec_parse := spec_parse s;
     spec_default := Some d;
     spec_devDefault := spec_devDefault s;
     spec_choices := spec_choices s;
     spec_desc := spec_desc s;
     spec_example := spec_example s;
     spec_docs := spec_docs s |}.

Definition with_devDefault (d : value) (s : Spec) : Spec :=
  {| spec_parse := spec_parse s;
     spec_default := spec_default s;
     spec_devDefault := Some d;
     spec_choices := spec_choices s;
     spec_desc := spec_desc s;
     spec_example := spec_example s;
     spec_docs := spec_docs s |}.

Definition with_choices (c : choices_field) (s : Spec) : Spec :=
  {| spec_parse := spec_parse s;
     spec_default := spec_default s;
     spec_devDefault := spec_devDefault s;
     spec_choices := Some c;
     spec_desc := spec_desc s;
     spec_example := spec_example s;
     spec_docs := spec_docs s |}.

Definition with_desc (d e : string) (s : Spec) : Spec :=
  {| spec_parse := spec_parse s;
     spec_default := spec_default s;
     spec_devDefault := spec_devDefault s;
     spec_choices := spec_choices s;
     spec_desc := Some d;
     spec_example := Some e;
     spec_docs := spec_docs s |}.

(** A validator that accepts strings only. *)
Definition str : Spec :=
  plain (Function (λ input,
    match input with
    | VStr _ => Ok input
    | _ => Throw (EnvError "Not a string")
    end)).


(** A validator that accepts numbers, also written as digits "0".."9". *)
Definition num : Spec :=
  plain (Function (λ input,
    match input with
    | VNum _ => Ok input
    | VStr "0" => Ok (VNum "0")
    | VStr "1" => Ok (VNum "1")
    | _ => Throw (EnvError "Invalid number input")
    end)).

(** A validator whose parser hands its input through. *)
Definition anything : Spec := plain (Function Ok).

(** A spec without a parser. *)
Definition malformed : Spec := plain (NotFunction VUndefined).

(** A reporter that keeps quiet. *)
Definition silent : Reporter := λ _, Returns.

(** Modelled from the spec: the default reporter of [./reporter], which
    is not part of this module.  It ends the process when the error map
    is not empty and does nothing otherwise. *)
Definition contract_reporter : Reporter :=
  λ r, if decide (errors r = ∅) then Returns else Exits 1.

(** Modelled from the spec: a default catalog of [./middleware], which
    is not part of this module, with one stage that adds a convenience
    accessor for the deployment mode. *)
Definition accessors : Middleware :=
  λ acc rawEnv,
    Ok (<["isProduction" :=
           VBool (strict_eq (readRawEnvValue rawEnv "NODE_ENV")
                            (VStr "production"))]> acc).

Definition catalog : list Middleware := [accessors].

(** A stage that records under ["SEEN"] the mode it reads from the raw
    environment. *)
Definition tag_mode : Middleware :=
  λ acc rawEnv, Ok (<["SEEN" := readRawEnvValue rawEnv "NODE_ENV"]> acc).

Definition production : gmap string value :=
  {["NODE_ENV" := VStr "production"]}.

Definition development : gmap string value :=
  {["NODE_ENV" := VStr "development"]}.

(** [num({ default: 3000, devDefault: 8080 })] *)
Definition port_spec : Spec :=
  with_devDefault (VNum "8080") (with_default (VNum "3000") num).

(** [str({ default: 'fallback', devDefault: undefined })] *)
Definition shadowed_spec : Spec :=
  with_devDefault VUndefined (with_default (VStr "fallback") str).

(** [str({ devDefault: undefined })] *)
Definition optional_in_dev : Spec := with_devDefault VUndefined str.

(** [str({ default: testOnly('stub'), desc: 'The API key', example: 'abc' })]
    built outside test mode *)
Definition test_only_spec : Spec :=
  with_desc "The API key" "abc" (with_default testOnlySymbol str).

(** [{ ..., choices: null }] and [{ ..., choices: '' }] *)
Definition null_choices : Spec := with_choices (NotArray VNull) anything.
Definition empty_choices : Spec := with_choices (NotArray (VStr "")) anything.

(** [{ ..., choices: 'ab' }] and [{ ..., choices: ['a', 'b'] }] *)
Definition string_choices : Spec := with_choices (NotArray (VStr "ab")) anything.
Definition ab_choices : Spec :=
  with_choices (Array [VStr "a"; VStr "b"]) anything.



(** [{ reporter: silent }], [{ reporter: null }] and [{}] *)
Definition quiet : CleanOptions :=
  {| reporter := ReporterFunction silent; middleware := None |}.
Definition throwing : CleanOptions :=
  {| reporter := ReporterNull; middleware := None |}.
Definition empty_options : CleanOptions :=
  {| reporter := ReporterUndefined; middleware := None |}.

(** [{ HOST: str({ default: 'localhost' }), API_KEY: str(), PORT: num() }] *)
Definition service_specs : list (string * Spec) :=
  [("HOST", with_default (VStr "localhost") str);
   ("API_KEY", str);
   ("PORT", num)].

Definition service_env : gmap string value := {["PORT" := VStr "1"]}.

(** [{ middleware: [tag_mode, accessors] }] *)
Definition two_stages : CleanOptions :=
  {| reporter := ReporterUndefined;
     middleware := Some [tag_mode; accessors] |}.
End Samples.

(** ** Further notions used to state properties *)

(** The spec with neither a [default] nor a [devDefault] property. *)
Definition without_defaults (spec : Spec) : Spec :=
  {| spec_parse := spec_parse spec;
     spec_default := None;
     spec_devDefault := None;
     spec_choices := spec_choices spec;
     spec_desc := spec_desc spec;
     spec_example := spec_example spec;
     spec_docs := spec_docs spec |}.

(** The parser call of a declared key, as the loop logs it. *)
Definition parse_event (environment : gmap string value) (rawNodeEnv : value)
    (ks : string * Spec) : event :=
  EvParse ks.1 (rawValue environment rawNodeEnv ks.1 ks.2).

(** The value the loop reads for a key, with [null] taken as [undefined]:
    all that [??] lets through of it. *)
Definition explicit_value (environment : gmap string value) (k : string)
  : value :=
  nullish_coalesce (readRawEnvValue environment k) VUndefined.

Definition is_middleware_event (e : event) : bool :=
  match e with
  | EvMiddleware _ _ _ => true
  | _ => false
  end.

(** What [cleanEnv] makes of the outcome of the middleware stages. *)
Definition frozen_result (r : result (gmap string value)) : outcome jsobject :=
  match r with
  | Ok output => Returned (Object_freeze output)
  | Throw e => Raised e
  end.

(** Falsy as [spec.example ? ... : ''] sees a string property. *)
Definition blank (o : option string) : bool :=
  match o with
  | Some s => String.eqb s ""
  | None => true
  end.

(** ** Further sample inputs *)

Module MoreSamples.
(** A stage that throws. *)
Definition failing_stage : Middleware :=
  λ _ _, Throw (Thrown (VStr "stage failed")).

(** A reporter that throws when there are errors. *)
Definition strict_reporter : Reporter :=
  λ r, if decide (errors r = ∅) then Returns
       else Throws (Thrown (VStr "invalid environment")).

(** [str({ devDefault: 'dev-secret' })] *)
Definition dev_only : Spec := Samples.with_devDefault (VStr "dev-secret") Samples.str.

(** [str({ default: testOnly('stub') })], built in and outside test mode *)
Definition stubbed (process_env : gmap string string) : Spec :=
  Samples.with_default (testOnly process_env (VStr "stub")) Samples.str.

(** What [Object.prototype] holds, as far as the examples read it. *)
Definition object_prototype : gmap string value :=
  {["toString" := VObj 1 (Renders "function toString() { [native code] }")]}.

(** An environment with variables that no spec declares. *)
Definition noisy_env : gmap string value :=
  <["HOME" := VStr "/root"]> (<["PATH" := VStr "/bin"]> Samples.service_env).

(** [{ reporter: strict_reporter }] *)
Definition strict_options : CleanOptions :=
  {| reporter := ReporterFunction strict_reporter; middleware := None |}.

(** [{ middleware: [tag_mode, failing_stage, accessors] }] *)
Definition broken_pipeline : list Middleware :=
  [Samples.tag_mode; failing_stage; Samples.accessors].
End MoreSamples.

(** * Properties *)

(** ** Comparison and coalescing *)

Lemma strict_eq_sound (a b : value) : strict_eq a b = true → a = b.
Proof.
  destruct a, b; cbn [strict_eq]; try discriminate; intros H;
    by apply bool_decide_eq_true in H.
Qed.

Lemma strict_eq_refl (a : value) : a ≠ VNaN → strict_eq a a = true.
Proof.
  destruct a; cbn [strict_eq]; try done; intros _; by apply bool_decide_eq_true.
Qed.

Lemma strict_eq_str_false (a : value) (s : string) :
  a ≠ VStr s → strict_eq a (VStr s) = false.
Proof.
  intros Hne. destruct a; cbn [strict_eq]; try done.
  apply bool_decide_eq_false. congruence.
Qed.

Lemma strict_eq_undefined (a : value) :
  strict_eq a VUndefined = true ↔ a = VUndefined.
Proof.
  split; [apply strict_eq_sound | intros ->; done].
Qed.

Lemma strict_eq_undefined_false (a : value) :
  a ≠ VUndefined → strict_eq a VUndefined = false.
Proof.
  intros Hne. destruct (strict_eq a VUndefined) eqn:E; [|done].
  by apply strict_eq_undefined in E.
Qed.

Lemma nullish_coalesce_absent (b : value) : nullish_coalesce VUndefined b = b.
Proof. done. Qed.

Lemma nullish_coalesce_present (a b : value) :
  is_nullish a = false → nullish_coalesce a b = a.
Proof. unfold nullish_coalesce. by intros ->. Qed.


(** ** Resolution of the raw value *)

Section ResolutionFacts.
Context (environment : gmap string value) (k : string) (spec : Spec).

Lemma readRawEnvValue_absent :
  environment !! k = None → readRawEnvValue environment k = VUndefined.
Proof. unfold readRawEnvValue. by intros ->. Qed.

Lemma usingDevDefault_production :
  usingDevDefault (VStr "production") spec = false.
Proof. done. Qed.

Lemma usingDevDefault_declared (rawNodeEnv d : value) :
  rawNodeEnv ≠ VStr "production" →
  spec_devDefault spec = Some d →
  usingDevDefault rawNodeEnv spec = true ∧ devDefault rawNodeEnv spec = d.
Proof.
  intros Hmode Hd. unfold devDefault, usingDevDefault.
  rewrite (strict_eq_str_false _ _ Hmode), Hd. done.
Qed.

Lemma rawValue_production :
  rawValue environment (VStr "production") k spec
  = nullish_coalesce (readRawEnvValue environment k) (prop (spec_default spec)).
Proof. done. Qed.


Lemma rawValue_explicit (rawNodeEnv v : value) :
  environment !! k = Some v → is_nullish v = false →
  rawValue environment rawNodeEnv k spec = v.
Proof.
  intros Hk Hv. unfold rawValue, readRawEnvValue. rewrite Hk. simpl.
  by apply nullish_coalesce_present.
Qed.

Lemma rawValue_devDefault (rawNodeEnv d : value) :
  rawNodeEnv ≠ VStr "production" →
  environment !! k = None →
  spec_devDefault spec = Some d →
  d ≠ VUndefined →
  rawValue environment rawNodeEnv k spec = d.
Proof.
  intros Hmode Hk Hd Hdef.
  destruct (usingDevDefault_declared rawNodeEnv d Hmode Hd) as [_ Hdev].
  unfold rawValue. rewrite (readRawEnvValue_absent Hk), Hdev.
  by rewrite (strict_eq_undefined_false _ Hdef).
Qed.

Lemma rawValue_undefined_devDefault (rawNodeEnv : value) :
  rawNodeEnv ≠ VStr "production" →
  environment !! k = None →
  spec_devDefault spec = Some VUndefined →
  rawValue environment rawNodeEnv k spec = prop (spec_default spec).
Proof.
  intros Hmode Hk Hd.
  destruct (usingDevDefault_declared rawNodeEnv _ Hmode Hd) as [_ Hdev].
  unfold rawValue. by rewrite (readRawEnvValue_absent Hk), Hdev.
Qed.

Lemma rawValue_resolved (rawNodeEnv d : value) :
  environment !! k = None →
  resolved_default rawNodeEnv spec = Some d →
  rawValue environment rawNodeEnv k spec = d.
Proof.
  intros Hk. unfold resolved_default, rawValue.
  rewrite (readRawEnvValue_absent Hk), nullish_coalesce_absent.
  unfold devDefault.
  destruct (usingDevDefault rawNodeEnv spec) eqn:Hu; simpl.
  - destruct (strict_eq (prop (spec_devDefault spec)) VUndefined) eqn:E; simpl.
    + destruct (spec_default spec); simpl; congruence.
    + intros ->. done.
  - destruct (spec_default spec); simpl; congruence.
Qed.

Lemma usingFalsyDefault_resolved (rawNodeEnv : value) :
  environment !! k = None →
  resolved_default rawNodeEnv spec = Some VUndefined →
  usingFalsyDefault environment rawNodeEnv k spec = true.
Proof.
  intros Hk Hres. unfold usingFalsyDefault.
  rewrite (rawValue_resolved _ _ Hk Hres).
  revert Hres. unfold resolved_default, devDefault.
  destruct (usingDevDefault rawNodeEnv spec) eqn:Hu; simpl.
  - destruct (strict_eq (prop (spec_devDefault spec)) VUndefined) eqn:E; simpl.
    + intros _. apply orb_true_r.
    + intros Hd. rewrite Hd in E. done.
  - destruct (spec_default spec) as [d|]; [|done].
    intros [= ->]. done.
Qed.

Lemma try_block_sentinel (rawNodeEnv : value) :
  rawValue environment rawNodeEnv k spec = testOnlySymbol →
  try_block environment rawNodeEnv k spec
  = ([], Throw (EnvMissingError (formatSpecDescription spec))).
Proof. unfold try_block. by intros ->. Qed.

Lemma try_block_validates (rawNodeEnv : value) :
  isTestOnlySymbol (rawValue environment rawNodeEnv k spec) = false →
  rawValue environment rawNodeEnv k spec ≠ VUndefined →
  try_block environment rawNodeEnv k spec
  = validated (validateVar k spec (rawValue environment rawNodeEnv k spec)).
Proof.
  intros Hs Hu. unfold try_block.
  by rewrite Hs, (strict_eq_undefined_false _ Hu).
Qed.

Lemma try_block_skips (rawNodeEnv : value) :
  rawValue environment rawNodeEnv k spec = VUndefined →
  usingFalsyDefault environment rawNodeEnv k spec = true →
  try_block environment rawNodeEnv k spec = ([], Ok None).
Proof. unfold try_block. by intros -> ->. Qed.
End ResolutionFacts.

(** ** Precedence of explicit values, dev-defaults and defaults *)




(** ** The test-only sentinel *)

(** C7: [testOnly v] is [v] when the mode it reads, [NODE_ENV] of the
    process environment ([process.env], not the environment handed to
    [cleanEnv]), is exactly ["test"], and the sentinel in every other
    case (another value, or no value), so that it returns a [v] other
    than the sentinel only in test mode.  The sentinel is a symbol, so it
    is no [undefined], [null], boolean, number, string or object, and the
    test for it recognises the sentinel and nothing else.  A key whose
    resolved raw value is the sentinel fails, without its parser being
    called, with an [EnvMissingError] whose message is the description
    (the text [undefined] without one), then [ (eg. "<example>")] when
    the spec has a non-empty example, then [. See <docs>] when it has a
    non-empty docs link. *)
Theorem C7_testOnly_sentinel
    (process_env : gmap string string) (v : value)
    (environment : gmap string value) (rawNodeEnv : value)
    (k : string) (spec : Spec) :
  (process_env !! "NODE_ENV" = Some "test" → testOnly process_env v = v)
  ∧ (process_env !! "NODE_ENV" ≠ Some "test" →
     testOnly process_env v = testOnlySymbol)
  ∧ (testOnly process_env v = v → v ≠ testOnlySymbol →
     process_env !! "NODE_ENV" = Some "test")
  ∧ (∃ id, testOnlySymbol = VSymbol id)
  ∧ (∀ x, isTestOnlySymbol x = true ↔ x = testOnlySymbol)
  ∧ (rawValue environment rawNodeEnv k spec = testOnlySymbol →
     try_block environment rawNodeEnv k spec
     = ([], Throw (EnvMissingError
                     (default "undefined" (spec_desc spec)
                      +:+ (if blank (spec_example spec) then ""
                           else " (eg. " +:+ dq
                                +:+ default "" (spec_example spec)
                                +:+ dq +:+ ")")
                      +:+ (if blank (spec_docs spec) then ""
                           else ". See " +:+ default "" (spec_docs spec)))))).
Proof.
  unfold testOnly. split; [|split; [|split; [|split; [|split]]]].
  - intros H. by rewrite bool_decide_eq_true_2.
  - intros H. by rewrite bool_decide_eq_false_2.
  - case_bool_decide; [done|]. by intros <-.
  - by exists 0.
  - intros x. split; [apply strict_eq_sound | by intros ->].
  - intros Hraw. rewrite (try_block_sentinel _ _ _ _ Hraw).
    unfold formatSpecDescription, blank.
    by destruct (spec_example spec), (spec_docs spec).
Qed.

(** [testOnly] reads the mode of the process, which need not be the mode
    of the environment handed to [cleanEnv]. *)
Example testOnly_reads_the_process_mode :
  testOnly {["NODE_ENV" := "development"]} (VStr "stub") = testOnlySymbol
  ∧ readRawEnvValue {["NODE_ENV" := VStr "test"]} "NODE_ENV" = VStr "test".
Proof. split; reflexivity. Qed.

Lemma C7_testOnly_sentinel_witness :
  testOnly {["NODE_ENV" := "test"]} (VStr "stub") = VStr "stub"
  ∧ testOnly {["NODE_ENV" := "development"]} (VStr "stub") = testOnlySymbol
  ∧ ({["NODE_ENV" := "test"]} : gmap string string) !! "NODE_ENV"
    = Some "test"
  ∧ try_block ∅ VUndefined "API_KEY" Samples.test_only_spec
    = ([], Throw (EnvMissingError
                    ("The API key (eg. " +:+ dq +:+ "abc" +:+ dq +:+ ")"))).
Proof.
  split; [|split; [|split]].
  - destruct (C7_testOnly_sentinel {["NODE_ENV" := "test"]} (VStr "stub")
                ∅ VUndefined "API_KEY" Samples.test_only_spec) as (H & _).
    apply H. reflexivity.
  - destruct (C7_testOnly_sentinel {["NODE_ENV" := "development"]}
                (VStr "stub") ∅ VUndefined "API_KEY" Samples.test_only_spec)
      as (_ & H & _).
    apply H. discriminate.
  - destruct (C7_testOnly_sentinel {["NODE_ENV" := "test"]} (VStr "stub")
                ∅ VUndefined "API_KEY" Samples.test_only_spec)
      as (_ & _ & H & _).
    apply H; [reflexivity | discriminate].
  - destruct (C7_testOnly_sentinel ∅ VUndefined
                ∅ VUndefined "API_KEY" Samples.test_only_spec)
      as (_ & _ & _ & _ & _ & H).
    rewrite H; reflexivity.
Defined.

(** ** validateVar *)

Lemma validateVar_not_callable (name : string) (spec : Spec) (raw x : value) :
  spec_parse spec = NotFunction x →
  validateVar name spec raw
  = ([], Throw (EnvError ("Invalid spec for " +:+ dq +:+ name +:+ dq))).
Proof. unfold validateVar. by intros ->. Qed.

Lemma validateVar_parser_throws (name : string) (spec : Spec) (raw : value)
    (f : value → result value) (e : error) :
  spec_parse spec = Function f → f raw = Throw e →
  validateVar name spec raw = ([EvParse name raw], Throw e).
Proof. unfold validateVar. by intros -> ->. Qed.

Lemma validateVar_accepted (name : string) (spec : Spec) (raw : value)
    (f : value → result value) (v : value) :
  spec_parse spec = Function f → f raw = Ok v →
  choices_accept (spec_choices spec) v = true →
  validateVar name spec raw
  = ([EvParse name raw],
     if is_nullish v
     then Throw (EnvError ("Invalid value for env var " +:+ dq +:+ name +:+ dq))
     else Ok v).
Proof.
  unfold validateVar, choices_accept. intros -> -> Hacc.
  destruct (spec_choices spec) as [[l|c]|]; simpl.
  - rewrite Hacc. by destruct (is_nullish v).
  - apply negb_true_iff in Hacc. rewrite Hacc. by destruct (is_nullish v).
  - by destruct (is_nullish v).
Qed.

(** C3, as stated, fails: a [choices] property that is declared, is not
    an array and is falsy ([null], the empty string) raises no TypeError;
    it is ignored and the parsed value is returned. *)
Lemma C3_falsy_choices_are_ignored :
  spec_choices Samples.null_choices = Some (NotArray VNull)
  ∧ validateVar "KEY" Samples.null_choices (VStr "x")
    = ([EvParse "KEY" (VStr "x")], Ok (VStr "x"))
  ∧ spec_choices Samples.empty_choices = Some (NotArray (VStr ""))
  ∧ validateVar "KEY" Samples.empty_choices (VStr "x")
    = ([EvParse "KEY" (VStr "x")], Ok (VStr "x")).
Proof. repeat split. Qed.

(** C3 (amended): for every key, spec and raw value, [validateVar]
    (1) fails with an [EnvError] when [_parse] is not a function, without
    calling anything; (2) otherwise calls [_parse] once and fails with
    whatever that throws; and when it returns a value: (3) fails with a
    TypeError when [choices] is truthy and not an array; (4) fails with
    an [EnvError] when [choices] is an array that does not contain the
    value, whenever the value and the choices convert to the strings that
    the message is built from; (5) when the choices let the value through
    (no [choices], a falsy one, or an array containing the value), fails
    with an [EnvError] if the value is [null] or [undefined], and (6)
    otherwise returns the value. *)
Theorem C3_validateVar_classification
    (name : string) (spec : Spec) (raw : value) :
  (∀ x, spec_parse spec = NotFunction x →
     validateVar name spec raw
     = ([], Throw (EnvError ("Invalid spec for " +:+ dq +:+ name +:+ dq))))
  ∧ (∀ f e, spec_parse spec = Function f → f raw = Throw e →
     validateVar name spec raw = ([EvParse name raw], Throw e))
  ∧ (∀ f v, spec_parse spec = Function f → f raw = Ok v →
     (∀ c, spec_choices spec = Some (NotArray c) → truthy c = true →
        validateVar name spec raw
        = ([EvParse name raw],
           Throw (TypeError (dq +:+ "choices" +:+ dq
                             +:+ " must be an array (in spec for "
                             +:+ dq +:+ name +:+ dq +:+ ")"))))
     ∧ (∀ l, spec_choices spec = Some (Array l) →
        existsb (λ c, same_value_zero c v) l = false →
        ∀ sv sl, to_string v = Ok sv → array_join l = Ok sl →
          validateVar name spec raw
          = ([EvParse name raw],
             Throw (EnvError ("Value " +:+ dq +:+ sv +:+ dq
                              +:+ " not in choices [" +:+ sl +:+ "]"))))
     ∧ (choices_accept (spec_choices spec) v = true → is_nullish v = true →
        validateVar name spec raw
        = ([EvParse name raw],
           Throw (EnvError ("Invalid value for env var "
                            +:+ dq +:+ name +:+ dq))))
     ∧ (choices_accept (spec_choices spec) v = true → is_nullish v = false →
        validateVar name spec raw = ([EvParse name raw], Ok v))).
Proof.
  split; [|split].
  - intros x Hx. by apply validateVar_not_callable with x.
  - intros f e. apply validateVar_parser_throws.
  - intros f v Hf Hv. split; [|split; [|split]].
    + intros c Hc Ht. unfold validateVar. rewrite Hf, Hv, Hc. simpl.
      by rewrite Ht.
    + intros l Hl Hnotin sv sl Hsv Hsl. unfold validateVar.
      rewrite Hf, Hv, Hl. simpl. by rewrite Hnotin, Hsv, Hsl.
    + intros Hacc Hnull.
      by rewrite (validateVar_accepted _ _ _ _ _ Hf Hv Hacc), Hnull.
    + intros Hacc Hnull.
      by rewrite (validateVar_accepted _ _ _ _ _ Hf Hv Hacc), Hnull.
Qed.

Lemma C3_validateVar_classification_witness :
  validateVar "KEY" Samples.malformed (VStr "x")
  = ([], Throw (EnvError ("Invalid spec for " +:+ dq +:+ "KEY" +:+ dq)))
  ∧ validateVar "KEY" Samples.num (VStr "x")
    = ([EvParse "KEY" (VStr "x")], Throw (EnvError "Invalid number input"))
  ∧ validateVar "KEY" Samples.string_choices (VStr "a")
    = ([EvParse "KEY" (VStr "a")],
       Throw (TypeError (dq +:+ "choices" +:+ dq
                         +:+ " must be an array (in spec for "
                         +:+ dq +:+ "KEY" +:+ dq +:+ ")")))
  ∧ validateVar "KEY" Samples.ab_choices (VStr "c")
    = ([EvParse "KEY" (VStr "c")],
       Throw (EnvError ("Value " +:+ dq +:+ "c" +:+ dq
                        +:+ " not in choices [a,b]")))
  ∧ validateVar "KEY" Samples.anything VNull
    = ([EvParse "KEY" VNull],
       Throw (EnvError ("Invalid value for env var " +:+ dq +:+ "KEY" +:+ dq)))
  ∧ validateVar "KEY" Samples.ab_choices (VStr "b")
    = ([EvParse "KEY" (VStr "b")], Ok (VStr "b")).
Proof.
  split; [|split; [|split; [|split; [|split]]]].
  - destruct (C3_validateVar_classification "KEY" Samples.malformed
                (VStr "x")) as (H & _).
    apply (H VUndefined eq_refl).
  - destruct (C3_validateVar_classification "KEY" Samples.num
                (VStr "x")) as (_ & H & _).
    eapply H; reflexivity.
  - destruct (C3_validateVar_classification "KEY" Samples.string_choices
                (VStr "a")) as (_ & _ & H).
    destruct (H Ok (VStr "a") eq_refl eq_refl) as (H1 & _).
    apply (H1 (VStr "ab")); reflexivity.
  - destruct (C3_validateVar_classification "KEY" Samples.ab_choices
                (VStr "c")) as (_ & _ & H).
    destruct (H Ok (VStr "c") eq_refl eq_refl) as (_ & H2 & _).
    apply (H2 [VStr "a"; VStr "b"] eq_refl eq_refl "c" "a,b");
      reflexivity.
  - destruct (C3_validateVar_classification "KEY" Samples.anything VNull)
      as (_ & _ & H).
    destruct (H Ok VNull eq_refl eq_refl) as (_ & _ & H3 & _).
    apply H3; reflexivity.
  - destruct (C3_validateVar_classification "KEY" Samples.ab_choices
                (VStr "b")) as (_ & _ & H).
    destruct (H Ok (VStr "b") eq_refl eq_refl) as (_ & _ & _ & H4).
    apply H4; reflexivity.
Defined.

(** ** The validation loop *)

Lemma validateVar_events (name : string) (spec : Spec) (raw : value) :
  fst (validateVar name spec raw) = []
  ∨ fst (validateVar name spec raw) = [EvParse name raw].
Proof.
  unfold validateVar. destruct (spec_parse spec) as [x|f]; [by left|right].
  destruct (f raw) as [v|e]; [|done].
  destruct (if choices_truthy (spec_choices spec) then _ else _); [|done].
  by destruct (is_nullish v).
Qed.

Lemma try_block_events (environment : gmap string value) (rawNodeEnv : value)
    (k : string) (spec : Spec) :
  Forall (λ ev, is_report ev = false)
    (fst (try_block environment rawNodeEnv k spec)).
Proof.
  unfold try_block.
  destruct (isTestOnlySymbol _); [by constructor|].
  destruct (strict_eq _ VUndefined).
  { destruct (negb _); by constructor. }
  pose proof (validateVar_events k spec
                (rawValue environment rawNodeEnv k spec)) as Hev.
  destruct (validateVar k spec _) as [tr [v|e]]; simpl in *;
    destruct Hev as [-> | ->]; by repeat constructor.
Qed.

Section Loop.
Context (options : CleanOptions).
Context (environment : gmap string value) (rawNodeEnv : value).

Local Abbreviation loop := (validation_loop options environment rawNodeEnv).
Local Abbreviation body := (try_block environment rawNodeEnv).
Local Abbreviation events := (flat_map (key_events environment rawNodeEnv)).

Lemma events_cons k spec rest :
  events ((k, spec) :: rest) = (body k spec).1 ++ events rest.
Proof. done. Qed.

(** One iteration, by what its [try] block did. *)
Lemma loop_assign k spec rest output errs tr v :
  body k spec = (tr, Ok (Some v)) →
  loop ((k, spec) :: rest) output errs
  = (tr ++ (loop rest (<[k := v]> output) errs).1,
     (loop rest (<[k := v]> output) errs).2).
Proof. simpl. intros ->. by destruct (loop rest _ _). Qed.

Lemma loop_skip k spec rest output errs tr :
  body k spec = (tr, Ok None) →
  loop ((k, spec) :: rest) output errs
  = (tr ++ (loop rest output errs).1, (loop rest output errs).2).
Proof. simpl. intros ->. by destruct (loop rest _ _). Qed.

Lemma loop_catch k spec rest output errs tr e :
  body k spec = (tr, Throw e) →
  reporter_is_null options = false →
  loop ((k, spec) :: rest) output errs
  = (tr ++ (loop rest output (<[k := e]> errs)).1,
     (loop rest output (<[k := e]> errs)).2).
Proof. simpl. intros -> ->. by destruct (loop rest _ _). Qed.

Lemma loop_rethrow k spec rest output errs tr e :
  body k spec = (tr, Throw e) →
  reporter_is_null options = true →
  loop ((k, spec) :: rest) output errs = (tr, Throw e).
Proof. simpl. by intros -> ->. Qed.

(** With a reporter that is not [null] the loop runs to its end, and
    its log is the log of every key in turn. *)
Lemma loop_total specs :
  reporter_is_null options = false →
  ∀ output errs, ∃ output' errs',
    loop specs output errs = (events specs, Ok (output', errs')).
Proof.
  intros Hrep. induction specs as [|[k spec] rest IH]; intros output errs.
  - by exists output, errs.
  - destruct (body k spec) as [tr [[v|]|e]] eqn:Hbody.
    + destruct (IH (<[k := v]> output) errs) as (o & e' & Hrest).
      exists o, e'. rewrite (loop_assign _ _ _ _ _ _ _ Hbody), Hrest.
      by rewrite events_cons, Hbody.
    + destruct (IH output errs) as (o & e' & Hrest).
      exists o, e'. rewrite (loop_skip _ _ _ _ _ _ Hbody), Hrest.
      by rewrite events_cons, Hbody.
    + destruct (IH output (<[k := e]> errs)) as (o & e' & Hrest).
      exists o, e'. rewrite (loop_catch _ _ _ _ _ _ _ Hbody Hrep), Hrest.
      by rewrite events_cons, Hbody.
Qed.

(** Keys that are not declared are left alone. *)
Lemma loop_frame specs : ∀ output errs tr output' errs',
  loop specs output errs = (tr, Ok (output', errs')) →
  ∀ k, k ∉ specs.*1 →
       output' !! k = output !! k ∧ errs' !! k = errs !! k.
Proof.
  induction specs as [|[k0 spec] rest IH];
    intros output errs tr output' errs' Hloop k Hk.
  - simpl in Hloop. by simplify_eq.
  - rewrite fmap_cons, not_elem_of_cons in Hk. destruct Hk as [Hne Hk].
    simpl in Hne.
    destruct (body k0 spec) as [tr0 [[v|]|e]] eqn:Hbody.
    + rewrite (loop_assign _ _ _ _ _ _ _ Hbody) in Hloop.
      destruct (loop rest (<[k0 := v]> output) errs) as [tr1 r] eqn:Hrest.
      simpl in Hloop. simplify_eq.
      destruct (IH _ _ _ _ _ Hrest k Hk) as [-> ->].
      by rewrite lookup_insert_ne.
    + rewrite (loop_skip _ _ _ _ _ _ Hbody) in Hloop.
      destruct (loop rest output errs) as [tr1 r] eqn:Hrest.
      simpl in Hloop. simplify_eq. by apply (IH _ _ _ _ _ Hrest).
    + destruct (reporter_is_null options) eqn:Hrep.
      { rewrite (loop_rethrow _ _ _ _ _ _ _ Hbody Hrep) in Hloop.
        by simplify_eq. }
      rewrite (loop_catch _ _ _ _ _ _ _ Hbody Hrep) in Hloop.
      destruct (loop rest output (<[k0 := e]> errs)) as [tr1 r] eqn:Hrest.
      simpl in Hloop. simplify_eq.
      destruct (IH _ _ _ _ _ Hrest k Hk) as [-> ->].
      by rewrite lookup_insert_ne.
Qed.

(** Every declared key is settled by its own [try] block. *)
Lemma loop_settles specs : ∀ output errs tr output' errs',
  NoDup specs.*1 →
  loop specs output errs = (tr, Ok (output', errs')) →
  ∀ k spec, (k, spec) ∈ specs →
            settled (body k spec).2 k output output' errs errs'.
Proof.
  induction specs as [|[k0 spec0] rest IH];
    intros output errs tr output' errs' Hnd Hloop k spec Hin.
  - by apply elem_of_nil in Hin.
  - rewrite fmap_cons in Hnd. apply NoDup_cons in Hnd as [Hfresh Hnd].
    simpl in Hfresh.
    apply elem_of_cons in Hin as [Heq | Hin].
    + (* the head key: the rest of the loop leaves it alone *)
      simplify_eq. unfold settled.
      destruct (body k0 spec0) as [tr0 [[v|]|e]] eqn:Hbody; simpl.
      * rewrite (loop_assign _ _ _ _ _ _ _ Hbody) in Hloop.
        destruct (loop rest (<[k0 := v]> output) errs) as [tr1 r] eqn:Hrest.
        simpl in Hloop. simplify_eq.
        destruct (loop_frame _ _ _ _ _ _ Hrest k0 Hfresh) as [-> ->].
        by rewrite lookup_insert_eq.
      * rewrite (loop_skip _ _ _ _ _ _ Hbody) in Hloop.
        destruct (loop rest output errs) as [tr1 r] eqn:Hrest.
        simpl in Hloop. simplify_eq.
        by apply (loop_frame _ _ _ _ _ _ Hrest).
      * destruct (reporter_is_null options) eqn:Hrep.
        { rewrite (loop_rethrow _ _ _ _ _ _ _ Hbody Hrep) in Hloop.
          by simplify_eq. }
        rewrite (loop_catch _ _ _ _ _ _ _ Hbody Hrep) in Hloop.
        destruct (loop rest output (<[k0 := e]> errs)) as [tr1 r] eqn:Hrest.
        simpl in Hloop. simplify_eq.
        destruct (loop_frame _ _ _ _ _ _ Hrest k0 Hfresh) as [-> ->].
        by rewrite lookup_insert_eq.
    + (* a later key: the head iteration leaves it alone *)
      assert (k ≠ k0) as Hne.
      { intros ->. apply Hfresh. apply list_elem_of_fmap.
        by exists (k0, spec). }
      destruct (body k0 spec0) as [tr0 [[v|]|e]] eqn:Hbody.
      * rewrite (loop_assign _ _ _ _ _ _ _ Hbody) in Hloop.
        destruct (loop rest (<[k0 := v]> output) errs) as [tr1 r] eqn:Hrest.
        simpl in Hloop. simplify_eq.
        pose proof (IH _ _ _ _ _ Hnd Hrest k spec Hin) as Hs.
        unfold settled in *. rewrite lookup_insert_ne in Hs by done. done.
      * rewrite (loop_skip _ _ _ _ _ _ Hbody) in Hloop.
        destruct (loop rest output errs) as [tr1 r] eqn:Hrest.
        simpl in Hloop. simplify_eq.
        by apply (IH _ _ _ _ _ Hnd Hrest).
      * destruct (reporter_is_null options) eqn:Hrep.
        { rewrite (loop_rethrow _ _ _ _ _ _ _ Hbody Hrep) in Hloop.
          by simplify_eq. }
        rewrite (loop_catch _ _ _ _ _ _ _ Hbody Hrep) in Hloop.
        destruct (loop rest output (<[k0 := e]> errs)) as [tr1 r] eqn:Hrest.
        simpl in Hloop. simplify_eq.
        pose proof (IH _ _ _ _ _ Hnd Hrest k spec Hin) as Hs.
        unfold settled in *. rewrite lookup_insert_ne in Hs by done. done.
Qed.
End Loop.

(** ** Collecting failures *)

(** C2: when [options.reporter] is not [null], the loop runs over every
    declared key and completes normally, whatever the keys do: its log is
    the log of each key in declared order; a key whose [try] block throws
    is recorded with that error in the error map and is not in the
    output; a key that is assigned is in the output and not in the error
    map; a key that is skipped is in neither; no key is in both maps; and
    both maps hold declared keys only. *)
Theorem C2_failures_are_collected
    (options : CleanOptions) (environment : gmap string value)
    (rawNodeEnv : value) (specs : list (string * Spec)) :
  reporter options ≠ ReporterNull →
  NoDup specs.*1 →
  ∃ output errs,
    validation_loop options environment rawNodeEnv specs ∅ ∅
    = (flat_map (key_events environment rawNodeEnv) specs, Ok (output, errs))
    ∧ (∀ k spec, (k, spec) ∈ specs →
         match (try_block environment rawNodeEnv k spec).2 with
         | Throw e => errs !! k = Some e ∧ output !! k = None
         | Ok (Some v) => output !! k = Some v ∧ errs !! k = None
         | Ok None => output !! k = None ∧ errs !! k = None
         end)
    ∧ (∀ k, output !! k = None ∨ errs !! k = None)
    ∧ (∀ k, k ∉ specs.*1 → output !! k = None ∧ errs !! k = None).
Proof.
  intros Hrep Hnd.
  assert (reporter_is_null options = false) as Hnull.
  { unfold reporter_is_null. by destruct (reporter options). }
  destruct (loop_total options environment rawNodeEnv specs Hnull ∅ ∅)
    as (output & errs & Hloop).
  exists output, errs.
  assert (∀ k spec, (k, spec) ∈ specs →
            match (try_block environment rawNodeEnv k spec).2 with
            | Throw e => errs !! k = Some e ∧ output !! k = None
            | Ok (Some v) => output !! k = Some v ∧ errs !! k = None
            | Ok None => output !! k = None ∧ errs !! k = None
            end) as Hkeys.
  { intros k spec Hin.
    pose proof (loop_settles _ _ _ _ _ _ _ _ _ Hnd Hloop k spec Hin) as Hs.
    unfold settled in Hs.
    destruct ((try_block environment rawNodeEnv k spec).2) as [[v|]|e];
      rewrite !lookup_empty in Hs; destruct Hs; by split. }
  assert (∀ k, k ∉ specs.*1 → output !! k = None ∧ errs !! k = None)
    as Hframe.
  { intros k Hk.
    destruct (loop_frame _ _ _ _ _ _ _ _ _ Hloop k Hk) as [-> ->].
    by rewrite !lookup_empty. }
  split; [done|]. split; [done|]. split; [|done].
  intros k. destruct (decide (k ∈ specs.*1)) as [Hin | Hout].
  - apply list_elem_of_fmap in Hin as ([k' spec] & -> & Hin). simpl.
    specialize (Hkeys k' spec Hin).
    destruct ((try_block environment rawNodeEnv k' spec).2) as [[v|]|e];
      destruct Hkeys; auto.
  - left. by apply Hframe.
Qed.

Lemma C2_failures_are_collected_witness :
  ∃ output errs,
    validation_loop Samples.quiet Samples.service_env VUndefined
      Samples.service_specs ∅ ∅
    = ([EvParse "HOST" (VStr "localhost"); EvParse "PORT" (VStr "1")],
       Ok (output, errs))
    ∧ output !! "HOST" = Some (VStr "localhost")
    ∧ errs !! "API_KEY" = Some (EnvMissingError "undefined")
    ∧ output !! "PORT" = Some (VNum "1").
Proof.
  destruct (C2_failures_are_collected Samples.quiet Samples.service_env
              VUndefined Samples.service_specs)
    as (output & errs & Hloop & Hkeys & _).
  - discriminate.
  - compute_done.
  - exists output, errs. split; [exact Hloop|].
    split; [|split].
    + apply (Hkeys "HOST" (Samples.with_default (VStr "localhost") Samples.str)).
      apply list_elem_of_In. left. reflexivity.
    + apply (Hkeys "API_KEY" Samples.str).
      apply list_elem_of_In. right. left. reflexivity.
    + apply (Hkeys "PORT" Samples.num).
      apply list_elem_of_In. right. right. left. reflexivity.
Defined.

(** ** A dev-default declared [undefined] *)

(** C10: outside production, when a spec declares [devDefault] with the
    value [undefined] and the key is absent from the environment, the raw
    value is the regular default (the value of the [default] property,
    [undefined] when there is none); and when no regular default is
    declared either, the iteration completes without assigning the key
    and without an error, so that after the loop the key is neither in
    the output nor in the error map. *)
Theorem C10_undefined_devDefault_falls_back
    (environment : gmap string value) (k : string) (spec : Spec) :
  readRawEnvValue environment "NODE_ENV" ≠ VStr "production" →
  spec_devDefault spec = Some VUndefined →
  environment !! k = None →
  rawValue environment (readRawEnvValue environment "NODE_ENV") k spec
  = prop (spec_default spec)
  ∧ (spec_default spec = None →
     try_block environment (readRawEnvValue environment "NODE_ENV") k spec
     = ([], Ok None)
     ∧ ∀ options specs tr output errs,
         NoDup specs.*1 → (k, spec) ∈ specs →
         validation_loop options environment
           (readRawEnvValue environment "NODE_ENV") specs ∅ ∅
         = (tr, Ok (output, errs)) →
         output !! k = None ∧ errs !! k = None).
Proof.
  intros Hmode Hd Hk.
  pose proof (rawValue_undefined_devDefault environment k spec _ Hmode Hk Hd)
    as Hraw.
  split; [done|]. intros Hnone.
  assert (try_block environment (readRawEnvValue environment "NODE_ENV") k spec
          = ([], Ok None)) as Htry.
  { apply try_block_skips.
    - by rewrite Hraw, Hnone.
    - apply usingFalsyDefault_resolved; [done|].
      unfold resolved_default.
      destruct (usingDevDefault_declared spec _ _ Hmode Hd) as [-> ->].
      by rewrite Hnone. }
  split; [done|].
  intros options specs tr output errs Hnd Hin Hloop.
  pose proof (loop_settles _ _ _ _ _ _ _ _ _ Hnd Hloop k spec Hin) as Hs.
  rewrite Htry in Hs. simpl in Hs. by rewrite !lookup_empty in Hs.
Qed.

Lemma C10_undefined_devDefault_falls_back_witness :
  rawValue Samples.development (readRawEnvValue Samples.development "NODE_ENV")
    "KEY" Samples.shadowed_spec = VStr "fallback"
  ∧ try_block Samples.development
      (readRawEnvValue Samples.development "NODE_ENV")
      "KEY" Samples.optional_in_dev = ([], Ok None).
Proof.
  split.
  - apply (C10_undefined_devDefault_falls_back Samples.development "KEY"
             Samples.shadowed_spec ltac:(discriminate) eq_refl eq_refl).
  - apply (C10_undefined_devDefault_falls_back Samples.development "KEY"
             Samples.optional_in_dev ltac:(discriminate) eq_refl eq_refl).
    reflexivity.
Defined.

(** ** The loop under [reporter: null] *)

Lemma filter_no_report (tr : list event) :
  Forall (λ ev, is_report ev = false) tr → List.filter is_report tr = [].
Proof.
  induction 1 as [|ev tr Hev _ IH]; [done|]. simpl. by rewrite Hev.
Qed.

Section NullReporter.
Context (options : CleanOptions).
Context (environment : gmap string value) (rawNodeEnv : value).
Hypothesis reporter_null : reporter_is_null options = true.

Local Abbreviation loop := (validation_loop options environment rawNodeEnv).
Local Abbreviation body := (try_block environment rawNodeEnv).
Local Abbreviation events := (flat_map (key_events environment rawNodeEnv)).

(** The loop completes only if no key fails, and then the error map is
    as it was. *)
Lemma loop_null_completes specs : ∀ output errs tr output' errs',
  loop specs output errs = (tr, Ok (output', errs')) →
  errs' = errs
  ∧ tr = events specs
  ∧ Forall (λ ks, is_Throw (body ks.1 ks.2).2 = false) specs.
Proof.
  induction specs as [|[k spec] rest IH];
    intros output errs tr output' errs' Hloop.
  - simpl in Hloop. by simplify_eq.
  - destruct (body k spec) as [tr0 [[v|]|e]] eqn:Hbody.
    + rewrite (loop_assign _ _ _ _ _ _ _ _ _ _ Hbody) in Hloop.
      destruct (loop rest (<[k := v]> output) errs) as [tr1 r] eqn:Hrest.
      simpl in Hloop. simplify_eq.
      destruct (IH _ _ _ _ _ Hrest) as (-> & -> & Hall).
      split; [done|]. split; [by rewrite events_cons, Hbody|].
      constructor; [|done]. simpl. by rewrite Hbody.
    + rewrite (loop_skip _ _ _ _ _ _ _ _ _ Hbody) in Hloop.
      destruct (loop rest output errs) as [tr1 r] eqn:Hrest.
      simpl in Hloop. simplify_eq.
      destruct (IH _ _ _ _ _ Hrest) as (-> & -> & Hall).
      split; [done|]. split; [by rewrite events_cons, Hbody|].
      constructor; [|done]. simpl. by rewrite Hbody.
    + rewrite (loop_rethrow _ _ _ _ _ _ _ _ _ _ Hbody reporter_null) in Hloop.
      by simplify_eq.
Qed.

(** The first key that fails ends the loop with its error; what comes
    after it in [specs] plays no part. *)
Lemma loop_null_first_failure pre k spec post e :
  Forall (λ ks, is_Throw (body ks.1 ks.2).2 = false) pre →
  (body k spec).2 = Throw e →
  ∀ output errs,
    loop (pre ++ (k, spec) :: post) output errs
    = (events (pre ++ [(k, spec)]), Throw e).
Proof.
  intros Hpre Hk. induction Hpre as [|[k0 spec0] pre Hhead _ IH];
    intros output errs.
  - simpl. destruct (body k spec) as [tr0 r] eqn:Hbody. simpl in Hk.
    subst r. rewrite reporter_null.
    unfold key_events. simpl. by rewrite Hbody, app_nil_r.
  - rewrite <- !app_comm_cons, events_cons. simpl in Hhead.
    destruct (body k0 spec0) as [tr0 [[v|]|e0]] eqn:Hbody; [| |done].
    + by rewrite (loop_assign _ _ _ _ _ _ _ _ _ _ Hbody), IH.
    + by rewrite (loop_skip _ _ _ _ _ _ _ _ _ Hbody), IH.
Qed.
End NullReporter.

Lemma loop_events_not_report (options : CleanOptions)
    (environment : gmap string value) (rawNodeEnv : value)
    (specs : list (string * Spec)) :
  ∀ output errs,
    Forall (λ ev, is_report ev = false)
      (validation_loop options environment rawNodeEnv specs output errs).1.
Proof.
  induction specs as [|[k spec] rest IH]; intros output errs; [by constructor|].
  pose proof (try_block_events environment rawNodeEnv k spec) as Hev.
  simpl. destruct (try_block environment rawNodeEnv k spec)
    as [tr0 [[v|]|e]]; simpl in Hev.
  - specialize (IH (<[k := v]> output) errs).
    destruct (validation_loop _ _ _ rest _ _). simpl in *.
    by apply Forall_app.
  - specialize (IH output errs).
    destruct (validation_loop _ _ _ rest _ _). simpl in *.
    by apply Forall_app.
  - destruct (reporter_is_null options); [done|].
    specialize (IH output (<[k := e]> errs)).
    destruct (validation_loop _ _ _ rest _ _). simpl in *.
    by apply Forall_app.
Qed.

Lemma reduce_middleware_events (mws : list Middleware)
    (environment : gmap string value) :
  ∀ stage acc,
    Forall (λ ev, is_report ev = false)
      (reduce_middleware stage mws environment acc).1.
Proof.
  induction mws as [|mw rest IH]; intros stage acc; [by constructor|].
  simpl. destruct (mw acc environment) as [acc'|e].
  - specialize (IH (S stage) acc').
    destruct (reduce_middleware _ rest _ _). simpl in *. by constructor.
  - by repeat constructor.
Qed.

(** C5: when [options.reporter] is [null] and some declared key fails,
    [cleanEnv] throws the error of the first failing key in declared
    order; the log holds the parser calls of the keys up to and including
    that key and nothing else (no later key is evaluated, no reporter and
    no middleware runs), so the call does not depend on the keys declared
    after it. *)
Theorem C5_first_failure_is_thrown
    (defaultReporter : Reporter) (defaultMiddlewares : list Middleware)
    (environment : gmap string value) (options : CleanOptions)
    (pre post : list (string * Spec)) (k : string) (spec : Spec) (e : error) :
  reporter options = ReporterNull →
  (∀ k' spec', (k', spec') ∈ pre →
     is_Throw (try_block environment
                 (readRawEnvValue environment "NODE_ENV") k' spec').2 = false) →
  (try_block environment (readRawEnvValue environment "NODE_ENV") k spec).2
  = Throw e →
  cleanEnv defaultReporter defaultMiddlewares environment
    (pre ++ (k, spec) :: post) (Some options)
  = (flat_map (key_events environment (readRawEnvValue environment "NODE_ENV"))
       (pre ++ [(k, spec)]),
     Raised e).
Proof.
  intros Hrep Hpre Hk. unfold cleanEnv. simpl.
  rewrite (loop_null_first_failure options environment _) with (e := e);
    [done| |by apply Forall_forall; intros [??]; apply Hpre|done].
  unfold reporter_is_null. by rewrite Hrep.
Qed.

Lemma C5_first_failure_is_thrown_witness :
  cleanEnv Samples.contract_reporter Samples.catalog Samples.service_env
    Samples.service_specs (Some Samples.throwing)
  = ([EvParse "HOST" (VStr "localhost")],
     Raised (EnvMissingError "undefined")).
Proof.
  apply (C5_first_failure_is_thrown Samples.contract_reporter Samples.catalog
           Samples.service_env Samples.throwing
           [("HOST", Samples.with_default (VStr "localhost") Samples.str)]
           [("PORT", Samples.num)] "API_KEY" Samples.str
           (EnvMissingError "undefined")).
  - reflexivity.
  - intros k' spec' Hin. apply list_elem_of_In in Hin.
    destruct Hin as [[= <- <-] | []]. reflexivity.
  - reflexivity.
Defined.

(** ** The reporter under [reporter: null] *)

(** C6, as stated, fails: with [reporter: null] and nothing to validate,
    [cleanEnv] returns and its log shows one call of the default
    reporter. *)
Lemma C6_default_reporter_is_invoked :
  reporter Samples.throwing = ReporterNull
  ∧ cleanEnv Samples.contract_reporter Samples.catalog ∅ []
      (Some Samples.throwing)
    = ([EvReport DefaultReporter ∅ ∅], Returned (Object_freeze ∅)).
Proof. split; reflexivity. Qed.

(** C6 (amended): when [options.reporter] is [null], no custom reporter
    is ever invoked and no reporter is handed an error; when a declared
    key fails, the loop throws and no reporter is invoked at all; in
    every other case, and so on every input on which [cleanEnv] returns,
    the default reporter is invoked exactly once, after the loop, with an
    empty error map and the output. *)
Theorem C6_null_reporter_calls_default
    (defaultReporter : Reporter) (defaultMiddlewares : list Middleware)
    (environment : gmap string value) (specs : list (string * Spec))
    (options : CleanOptions) :
  reporter options = ReporterNull →
  (∀ who errs output,
     EvReport who errs output
       ∈ (cleanEnv defaultReporter defaultMiddlewares environment specs
            (Some options)).1 →
     who = DefaultReporter ∧ errs = ∅)
  ∧ (∀ e,
     (validation_loop options environment
        (readRawEnvValue environment "NODE_ENV") specs ∅ ∅).2 = Throw e →
     List.filter is_report
       (cleanEnv defaultReporter defaultMiddlewares environment specs
          (Some options)).1 = [])
  ∧ (∀ r,
     (validation_loop options environment
        (readRawEnvValue environment "NODE_ENV") specs ∅ ∅).2 = Ok r →
     List.filter is_report
       (cleanEnv defaultReporter defaultMiddlewares environment specs
          (Some options)).1 = [EvReport DefaultReporter ∅ r.1])
  ∧ (∀ obj,
     (cleanEnv defaultReporter defaultMiddlewares environment specs
        (Some options)).2 = Returned obj →
     ∃ output,
       List.filter is_report
         (cleanEnv defaultReporter defaultMiddlewares environment specs
            (Some options)).1 = [EvReport DefaultReporter ∅ output]).
Proof.
  intros Hrep.
  assert (reporter_is_null options = true) as Hnull.
  { unfold reporter_is_null. by rewrite Hrep. }
  pose proof (loop_events_not_report options environment
                (readRawEnvValue environment "NODE_ENV") specs ∅ ∅) as Hloop_ev.
  unfold cleanEnv. simpl. unfold chosen_reporter. rewrite Hrep.
  destruct (validation_loop options environment _ specs ∅ ∅)
    as [tr [[output errs]|e]] eqn:Hloop; simpl in Hloop_ev.
  - destruct (loop_null_completes _ _ _ Hnull _ _ _ _ _ _ Hloop)
      as (-> & _ & _).
    pose proof (reduce_middleware_events) as Hmw_ev.
    assert (Forall (λ ev, is_report ev = false)
              (apply_middleware options environment output).1) as Hmw.
    { unfold apply_middleware.
      destruct (middleware options) as [[|mw mws]|]; try by constructor.
      apply Hmw_ev. }
    assert (∀ tr', Forall (λ ev, is_report ev = false) tr' →
              List.filter is_report
                ((tr ++ [EvReport DefaultReporter ∅ output]) ++ tr')
              = [EvReport DefaultReporter ∅ output]) as Hfilter.
    { intros tr' Htr'. rewrite !List.filter_app.
      rewrite (filter_no_report _ Hloop_ev), (filter_no_report _ Htr'). done. }
    assert (∀ tr',
              Forall (λ ev, is_report ev = false) tr' →
              ∀ who errs out,
                EvReport who errs out
                  ∈ (tr ++ [EvReport DefaultReporter ∅ output]) ++ tr' →
                who = DefaultReporter ∧ errs = ∅) as Hmem.
    { intros tr' Htr' who errs out Hin.
      rewrite !elem_of_app in Hin. destruct Hin as [[Hin | Hin] | Hin].
      - rewrite Forall_forall in Hloop_ev. by specialize (Hloop_ev _ Hin).
      - apply list_elem_of_singleton in Hin. by simplify_eq.
      - rewrite Forall_forall in Htr'. by specialize (Htr' _ Hin). }
    destruct (defaultReporter _).
    + destruct (apply_middleware options environment output) as [tr' [o|e]];
        simpl in Hmw.
      * split; [intros ???; by apply Hmem|]. split; [done|].
        split; [intros r [= <-]; by apply Hfilter|].
        intros obj _. exists output. by apply Hfilter.
      * split; [intros ???; by apply Hmem|]. split; [done|].
        split; [intros r [= <-]; by apply Hfilter|]. done.
    + specialize (Hfilter [] ltac:(constructor)).
      specialize (Hmem [] ltac:(constructor)). rewrite app_nil_r in *.
      split; [intros ???; by apply Hmem|]. split; [done|].
      split; [intros r [= <-]; by apply Hfilter|]. done.
    + specialize (Hfilter [] ltac:(constructor)).
      specialize (Hmem [] ltac:(constructor)). rewrite app_nil_r in *.
      split; [intros ???; by apply Hmem|]. split; [done|].
      split; [intros r [= <-]; by apply Hfilter|]. done.
  - split.
    { intros who errs out Hin. rewrite Forall_forall in Hloop_ev.
      by specialize (Hloop_ev _ Hin). }
    split; [intros _ _; by apply filter_no_report|]. done.
Qed.

Lemma C6_null_reporter_calls_default_witness :
  List.filter is_report
    (cleanEnv Samples.contract_reporter Samples.catalog
       (<["API_KEY" := VStr "k"]> Samples.service_env)
       Samples.service_specs (Some Samples.throwing)).1
  = [EvReport DefaultReporter ∅
       (<["HOST" := VStr "localhost"]>
          (<["API_KEY" := VStr "k"]> {["PORT" := VNum "1"]}))]
  ∧ List.filter is_report
      (cleanEnv Samples.contract_reporter Samples.catalog Samples.service_env
         Samples.service_specs (Some Samples.throwing)).1 = [].
Proof.
  split.
  - destruct (C6_null_reporter_calls_default Samples.contract_reporter
                Samples.catalog (<["API_KEY" := VStr "k"]> Samples.service_env)
                Samples.service_specs Samples.throwing eq_refl)
      as (_ & _ & H & _).
    rewrite (H (<["HOST" := VStr "localhost"]>
                  (<["API_KEY" := VStr "k"]> {["PORT" := VNum "1"]}), ∅)).
    + reflexivity.
    + vm_compute. reflexivity.
  - destruct (C6_null_reporter_calls_default Samples.contract_reporter
                Samples.catalog Samples.service_env
                Samples.service_specs Samples.throwing eq_refl)
      as (_ & H & _).
    apply (H (EnvMissingError "undefined")). reflexivity.
Defined.

(** ** Falsy defaults *)




(** ** Middleware *)

Section Pipeline.
Context (environment : gmap string value).

Lemma pipeline_nil acc : pipeline [] environment acc = Ok acc.
Proof. done. Qed.

Lemma pipeline_cons mw rest acc :
  pipeline (mw :: rest) environment acc
  = match mw acc environment with
    | Ok acc' => pipeline rest environment acc'
    | Throw e => Throw e
    end.
Proof.
  unfold pipeline. simpl. destruct (mw acc environment) as [acc'|e]; [done|].
  induction rest as [|mw' rest IH]; [done|]. apply IH.
Qed.

Lemma reduce_middleware_result mws : ∀ stage acc,
  (reduce_middleware stage mws environment acc).2
  = pipeline mws environment acc.
Proof.
  induction mws as [|mw rest IH]; intros stage acc; [done|].
  rewrite pipeline_cons. simpl.
  destruct (mw acc environment) as [acc'|e]; [|done].
  rewrite <- (IH (S stage) acc').
  by destruct (reduce_middleware (S stage) rest environment acc').
Qed.

(** The stage at position [length pre] is called on what the stages
    before it made of the first accumulator, with the environment. *)
Lemma reduce_middleware_stage pre mw post : ∀ stage acc acc',
  pipeline pre environment acc = Ok acc' →
  (reduce_middleware stage (pre ++ mw :: post) environment acc).1
    !! length pre
  = Some (EvMiddleware (stage + length pre) acc' environment).
Proof.
  induction pre as [|mw0 pre IH]; intros stage acc acc' Hpre.
  - rewrite pipeline_nil in Hpre. simplify_eq. simpl.
    rewrite Nat.add_0_r.
    destruct (mw acc' environment) as [a|e]; [|done].
    by destruct (reduce_middleware (S stage) post environment a).
  - rewrite pipeline_cons in Hpre. simpl.
    destruct (mw0 acc environment) as [a|e]; [|done].
    specialize (IH (S stage) a acc' Hpre).
    destruct (reduce_middleware (S stage) (pre ++ mw :: post) environment a).
    simpl in *. rewrite IH. f_equal. f_equal. lia.
Qed.

(** No stage is called twice, and none is left out unless an earlier
    one threw. *)
Lemma reduce_middleware_length mws : ∀ stage acc,
  length (reduce_middleware stage mws environment acc).1 ≤ length mws
  ∧ (is_Throw (pipeline mws environment acc) = false →
     length (reduce_middleware stage mws environment acc).1 = length mws).
Proof.
  induction mws as [|mw rest IH]; intros stage acc; [done|].
  rewrite pipeline_cons. simpl.
  destruct (mw acc environment) as [acc'|e].
  - destruct (IH (S stage) acc') as [Hle Heq].
    destruct (reduce_middleware (S stage) rest environment acc').
    simpl in *. split; [lia|]. intros Hok. by rewrite Heq.
  - simpl. split; [lia|done].
Qed.
End Pipeline.

(** C8, as stated, fails: called with options that have no [middleware]
    property, [cleanEnv] applies no stage at all, and the result lacks
    what the default catalog adds when the options are left out. *)
Lemma C8_options_without_middleware_skip_defaults :
  middleware Samples.empty_options = None
  ∧ cleanEnv Samples.contract_reporter Samples.catalog ∅ []
      (Some Samples.empty_options)
    = ([EvReport DefaultReporter ∅ ∅], Returned (Object_freeze ∅))
  ∧ cleanEnv Samples.contract_reporter Samples.catalog ∅ [] None
    = ([EvReport DefaultReporter ∅ ∅; EvMiddleware 0 ∅ ∅],
       Returned (Object_freeze {["isProduction" := VBool false]})).
Proof. repeat split. Qed.

(** C8 (amended): called with no options argument, [cleanEnv] behaves as
    with the default catalog as the [middleware] option; called with
    options, it applies the stages of [options.middleware], and no stage
    when that property is missing or empty.  Once the loop has completed
    and the reporter has returned, the stages are called after the
    reporter, in the order of the sequence, each exactly once unless an
    earlier one threw; each is handed what the stages before it made of
    the validated output, and the raw environment as it was passed to
    [cleanEnv]; the frozen output of the last stage is the result. *)
Theorem C8_middleware_in_order
    (defaultReporter : Reporter) (defaultMiddlewares : list Middleware)
    (environment : gmap string value) (specs : list (string * Spec)) :
  cleanEnv defaultReporter defaultMiddlewares environment specs None
  = cleanEnv defaultReporter defaultMiddlewares environment specs
      (Some {| reporter := ReporterUndefined;
               middleware := Some defaultMiddlewares |})
  ∧ ∀ options tr output errs,
      validation_loop options environment
        (readRawEnvValue environment "NODE_ENV") specs ∅ ∅
      = (tr, Ok (output, errs)) →
      (chosen_reporter defaultReporter options).2
        {| errors := errs; env := output |} = Returns →
      ∃ tr_mw,
        cleanEnv defaultReporter defaultMiddlewares environment specs
          (Some options)
        = (tr ++ [EvReport (chosen_reporter defaultReporter options).1
                    errs output] ++ tr_mw,
           match pipeline (default [] (middleware options)) environment output
           with
           | Ok output' => Returned (Object_freeze output')
           | Throw e => Raised e
           end)
        ∧ (∀ pre mw post acc,
             default [] (middleware options) = pre ++ mw :: post →
             pipeline pre environment output = Ok acc →
             tr_mw !! length pre
             = Some (EvMiddleware (length pre) acc environment))
        ∧ length tr_mw ≤ length (default [] (middleware options))
        ∧ (is_Throw (pipeline (default [] (middleware options))
                       environment output) = false →
           length tr_mw = length (default [] (middleware options))).
Proof.
  split; [done|].
  intros options tr output errs Hloop Hreport.
  exists (reduce_middleware 0 (default [] (middleware options))
            environment output).1.
  assert (apply_middleware options environment output
          = reduce_middleware 0 (default [] (middleware options))
              environment output) as Happly.
  { unfold apply_middleware. by destruct (middleware options) as [[|??]|]. }
  split; [|split; [|apply reduce_middleware_length]].
  - unfold cleanEnv. simpl. rewrite Hloop.
    destruct (chosen_reporter defaultReporter options) as [who report].
    simpl in *. rewrite Hreport, Happly.
    rewrite <- (reduce_middleware_result environment _ 0 output).
    destruct (reduce_middleware 0 _ environment output) as [tr' [o|e]];
      simpl; by rewrite <- app_assoc.
  - intros pre mw post acc Hsplit Hpre. rewrite Hsplit.
    by rewrite (reduce_middleware_stage environment pre mw post 0 output acc).
Qed.

Lemma C8_middleware_in_order_witness :
  cleanEnv Samples.contract_reporter Samples.catalog Samples.production []
    (Some Samples.two_stages)
  = ([EvReport DefaultReporter ∅ ∅;
      EvMiddleware 0 ∅ Samples.production;
      EvMiddleware 1 {["SEEN" := VStr "production"]} Samples.production],
     Returned (Object_freeze
                 (<["isProduction" := VBool true]>
                    {["SEEN" := VStr "production"]}))).
Proof.
  destruct (C8_middleware_in_order Samples.contract_reporter Samples.catalog
              Samples.production []) as [_ H].
  destruct (H Samples.two_stages [] ∅ ∅ eq_refl eq_refl)
    as (tr_mw & Hclean & Hstage & _ & Hlen).
  rewrite Hclean.
  pose proof (Hstage [] Samples.tag_mode [Samples.accessors] ∅
                eq_refl eq_refl) as H0.
  pose proof (Hstage [Samples.tag_mode] Samples.accessors []
                {["SEEN" := VStr "production"]} eq_refl eq_refl) as H1.
  specialize (Hlen eq_refl).
  destruct tr_mw as [|ev0 [|ev1 [|ev2 tr_mw]]]; try discriminate.
  simpl in H0, H1. injection H0 as ->. injection H1 as ->. reflexivity.
Defined.

(** ** The returned object *)

Lemma cleanEnv_returns_frozen
    (defaultReporter : Reporter) (defaultMiddlewares : list Middleware)
    (environment : gmap string value) (specs : list (string * Spec))
    (opts : option CleanOptions) (tr : list event) (obj : jsobject) :
  cleanEnv defaultReporter defaultMiddlewares environment specs opts
  = (tr, Returned obj) →
  obj = Object_freeze (props obj).
Proof.
  unfold cleanEnv.
  destruct (validation_loop _ _ _ _ _ _) as [tr0 [[output errs]|e]]; [|done].
  destruct (chosen_reporter _ _) as [who report].
  destruct (report _); [|done..].
  destruct (apply_middleware _ _ _) as [tr1 [output'|e]]; [|done].
  by intros [= _ <-].
Qed.

Lemma assign_frozen (strict : bool) (o : gmap string value)
    (k : string) (v : value) :
  assign false (Object_freeze o) k v = Ok (Object_freeze o)
  ∧ (∃ m, assign true (Object_freeze o) k v = Throw (TypeError m))
  ∧ after_assign strict (Object_freeze o) k v = Object_freeze o.
Proof.
  unfold after_assign, assign. simpl.
  destruct (o !! k) as [w|] eqn:Hk.
  - rewrite bool_decide_eq_true_2 by (apply elem_of_dom; eauto).
    split; [done|]. split; [by eexists|]. by destruct strict.
  - split; [done|]. split; [by eexists|]. by destruct strict.
Qed.

Lemma assign_plain (inherited : gmap string value) (strict : bool)
    (o : gmap string value) (k : string) (v : value) :
  get inherited (after_assign strict (plain_object o) k v) k = v.
Proof.
  unfold after_assign, assign, get. simpl.
  destruct (o !! k) as [w|]; simpl.
  - rewrite bool_decide_eq_false_2 by set_solver. simpl.
    by rewrite lookup_insert_eq.
  - by rewrite lookup_insert_eq.
Qed.

(** C9, as stated, fails: a write to the returned object from strict
    code is not a silent no-op, it raises a TypeError, for a key the
    object has and for one it has not. *)
Lemma C9_strict_write_throws :
  cleanEnv Samples.contract_reporter Samples.catalog ∅ [] None
  = ([EvReport DefaultReporter ∅ ∅; EvMiddleware 0 ∅ ∅],
     Returned (Object_freeze {["isProduction" := VBool false]}))
  ∧ assign true (Object_freeze {["isProduction" := VBool false]})
      "isProduction" (VBool true)
    = Throw (TypeError
               "Cannot assign to read only property 'isProduction' of object '#<Object>'")
  ∧ assign true (Object_freeze {["isProduction" := VBool false]})
      "PORT" (VNum "1")
    = Throw (TypeError "Cannot add property PORT, object is not extensible").
Proof. split; [|split]; reflexivity. Qed.

(** C9 (amended): the object returned by [cleanEnv], a plain object with
    data properties as the validated output is and as the middleware
    stages of the model return, is frozen: each of its own properties is
    read-only and none can be added.  An attempt to add or change any
    ordinary key of it leaves every subsequent read as it was, of an own
    key and of an inherited one, where the same assignment to the object
    before the freeze would show in the next read; the attempt is
    silently ignored in code that is not in strict mode and raises a
    TypeError in strict-mode code. *)
Theorem C9_returned_object_is_immutable
    (defaultReporter : Reporter) (defaultMiddlewares : list Middleware)
    (environment : gmap string value) (specs : list (string * Spec))
    (opts : option CleanOptions) (tr : list event) (obj : jsobject) :
  cleanEnv defaultReporter defaultMiddlewares environment specs opts
  = (tr, Returned obj) →
  (readonly obj = dom (props obj) ∧ extensible obj = false)
  ∧ ∀ (inherited : gmap string value) (k : string) (v : value),
      (∀ strict k',
         get inherited (after_assign strict obj k v) k'
         = get inherited obj k')
      ∧ (∀ strict,
           get inherited
             (after_assign strict (plain_object (props obj)) k v) k = v)
      ∧ assign false obj k v = Ok obj
      ∧ ∃ m, assign true obj k v = Throw (TypeError m).
Proof.
  intros Hclean.
  pose proof (cleanEnv_returns_frozen _ _ _ _ _ _ _ Hclean) as Hfrozen.
  split; [by rewrite Hfrozen|].
  intros inherited k v.
  split; [|split; [intros strict; apply assign_plain|]].
  - intros strict k'. rewrite Hfrozen.
    by destruct (assign_frozen strict (props obj) k v) as (_ & _ & ->).
  - rewrite Hfrozen.
    destruct (assign_frozen false (props obj) k v) as (Hsloppy & Hstrict & _).
    by rewrite <- Hfrozen in *.
Qed.

Lemma C9_returned_object_is_immutable_witness :
  get MoreSamples.object_prototype
    (after_assign false (Object_freeze {["isProduction" := VBool false]})
       "isProduction" (VBool true)) "isProduction" = VBool false
  ∧ get MoreSamples.object_prototype
      (after_assign true (Object_freeze {["isProduction" := VBool false]})
         "PORT" (VNum "1")) "PORT" = VUndefined
  ∧ get MoreSamples.object_prototype
      (after_assign false (Object_freeze {["isProduction" := VBool false]})
         "toString" (VStr "x")) "toString"
    = VObj 1 (Renders "function toString() { [native code] }").
Proof.
  assert (cleanEnv Samples.contract_reporter Samples.catalog ∅ [] None
          = ([EvReport DefaultReporter ∅ ∅; EvMiddleware 0 ∅ ∅],
             Returned (Object_freeze {["isProduction" := VBool false]})))
    as Hclean by reflexivity.
  split; [|split].
  - destruct (C9_returned_object_is_immutable _ _ _ _ _ _ _ Hclean)
      as [_ H].
    destruct (H MoreSamples.object_prototype "isProduction" (VBool true))
      as [Hread _].
    rewrite Hread. reflexivity.
  - destruct (C9_returned_object_is_immutable _ _ _ _ _ _ _ Hclean)
      as [_ H].
    destruct (H MoreSamples.object_prototype "PORT" (VNum "1"))
      as [Hread _].
    rewrite Hread. reflexivity.
  - destruct (C9_returned_object_is_immutable _ _ _ _ _ _ _ Hclean)
      as [_ H].
    destruct (H MoreSamples.object_prototype "toString" (VStr "x"))
      as [Hread _].
    rewrite Hread. reflexivity.
Defined.


(** * Further properties of the module *)

(** ** What validateVar returns *)

Lemma validateVar_Ok_inv
    (name : string) (spec : Spec) (raw : value) (tr : list event) (v : value) :
  validateVar name spec raw = (tr, Ok v) →
  tr = [EvParse name raw]
  ∧ (∃ f, spec_parse spec = Function f ∧ f raw = Ok v)
  ∧ is_nullish v = false
  ∧ choices_accept (spec_choices spec) v = true
  ∧ (∀ l, spec_choices spec = Some (Array l) → v ∈ l).
Proof.
  unfold validateVar, choices_accept.
  destruct (spec_parse spec) as [x|f]; [done|].
  destruct (f raw) as [v'|e] eqn:Hf; [|done].
  destruct (spec_choices spec) as [[l|c]|]; simpl.
  - destruct (existsb _ l) eqn:Hex.
    2: { destruct (to_string v'); [|done]. by destruct (array_join l). }
    destruct (is_nullish v') eqn:Hnull; [done|]. intros [= <- <-].
    split; [done|]. split; [by exists f|]. split; [done|]. split; [done|].
    intros l' [= <-]. apply existsb_exists in Hex as (c & Hin & Hc).
    apply bool_decide_eq_true in Hc. subst c. by apply list_elem_of_In.
  - destruct (truthy c); [done|]. simpl.
    destruct (is_nullish v') eqn:Hnull; [done|]. intros [= <- <-].
    split; [done|]. split; [by exists f|]. done.
  - destruct (is_nullish v') eqn:Hnull; [done|]. intros [= <- <-].
    split; [done|]. split; [by exists f|]. done.
Qed.

(** A value returned by [validateVar] is the value its parser returned
    for the raw value, after exactly one parser call; it is never [null]
    or [undefined]; and when [choices] is an array, it is one of the
    choices. *)
Theorem validateVar_return_value
    (name : string) (spec : Spec) (raw : value) (tr : list event) (v : value) :
  validateVar name spec raw = (tr, Ok v) →
  tr = [EvParse name raw]
  ∧ (∃ f, spec_parse spec = Function f ∧ f raw = Ok v)
  ∧ is_nullish v = false
  ∧ choices_accept (spec_choices spec) v = true
  ∧ (∀ l, spec_choices spec = Some (Array l) → v ∈ l).
Proof. apply validateVar_Ok_inv. Qed.

Lemma validateVar_return_value_witness :
  VStr "b" ∈ [VStr "a"; VStr "b"] ∧ is_nullish (VStr "b") = false.
Proof.
  destruct (validateVar_return_value "KEY" Samples.ab_choices (VStr "b")
              [EvParse "KEY" (VStr "b")] (VStr "b") eq_refl)
    as (_ & _ & Hnull & _ & Hin).
  split; [|exact Hnull]. apply (Hin [VStr "a"; VStr "b"] eq_refl).
Defined.

(** ** Required, optional and validated keys *)

Lemma rawValue_undefined_inv (environment : gmap string value)
    (rawNodeEnv : value) (k : string) (spec : Spec) :
  rawValue environment rawNodeEnv k spec = VUndefined →
  devDefault rawNodeEnv spec = VUndefined
  ∧ prop (spec_default spec) = VUndefined.
Proof.
  unfold rawValue, nullish_coalesce.
  destruct (is_nullish (readRawEnvValue environment k)) eqn:Hread.
  - destruct (strict_eq (devDefault rawNodeEnv spec) VUndefined) eqn:Hdev.
    + apply strict_eq_undefined in Hdev. by rewrite Hdev.
    + intros Heq. rewrite Heq in Hdev. done.
  - intros Heq. by rewrite Heq in Hread.
Qed.

Lemma usingFalsyDefault_undefined (environment : gmap string value)
    (rawNodeEnv : value) (k : string) (spec : Spec) :
  rawValue environment rawNodeEnv k spec = VUndefined →
  usingFalsyDefault environment rawNodeEnv k spec
  = hasOwnProperty (spec_default spec) || usingDevDefault rawNodeEnv spec.
Proof.
  intros Hraw. destruct (rawValue_undefined_inv _ _ _ _ Hraw) as [Hdev Hdef].
  unfold usingFalsyDefault. rewrite Hraw, Hdev, Hdef. simpl.
  by rewrite !andb_true_r.
Qed.

Lemma try_block_trichotomy
    (environment : gmap string value) (rawNodeEnv : value)
    (k : string) (spec : Spec) :
  (try_block environment rawNodeEnv k spec
   = ([], Throw (EnvMissingError (formatSpecDescription spec)))
   ∧ (rawValue environment rawNodeEnv k spec = testOnlySymbol
      ∨ (rawValue environment rawNodeEnv k spec = VUndefined
         ∧ hasOwnProperty (spec_default spec) = false
         ∧ usingDevDefault rawNodeEnv spec = false)))
  ∨ (try_block environment rawNodeEnv k spec = ([], Ok None)
     ∧ rawValue environment rawNodeEnv k spec = VUndefined
     ∧ (hasOwnProperty (spec_default spec) = true
        ∨ usingDevDefault rawNodeEnv spec = true))
  ∨ (try_block environment rawNodeEnv k spec
     = validated (validateVar k spec (rawValue environment rawNodeEnv k spec))
     ∧ rawValue environment rawNodeEnv k spec ≠ VUndefined
     ∧ rawValue environment rawNodeEnv k spec ≠ testOnlySymbol).
Proof.
  destruct (decide (rawValue environment rawNodeEnv k spec = testOnlySymbol))
    as [Hs | Hs].
  { left. split; [by apply try_block_sentinel | by left]. }
  assert (isTestOnlySymbol (rawValue environment rawNodeEnv k spec) = false)
    as Hsym.
  { destruct (isTestOnlySymbol _) eqn:E; [|done].
    by apply strict_eq_sound in E. }
  destruct (decide (rawValue environment rawNodeEnv k spec = VUndefined))
    as [Hu | Hu].
  - pose proof (usingFalsyDefault_undefined _ _ _ _ Hu) as Hfalsy.
    unfold try_block. rewrite Hsym, Hfalsy, Hu. simpl.
    destruct (hasOwnProperty (spec_default spec)),
             (usingDevDefault rawNodeEnv spec); simpl;
      [right; left; auto .. | left; split; [done|right; done]].
  - right. right. split; [by apply try_block_validates|done].
Qed.

(** Each iteration does exactly one of three things, decided by the raw
    value and by what the spec declares: it fails as missing, without a
    parser call, when the raw value is the test-only symbol, or is
    [undefined] while the spec has no [default] property and no dev-default
    in use; it skips the key, without error, when the raw value is
    [undefined] and the spec has a [default] property or a dev-default in
    use; it validates the raw value in every other case. *)
Theorem try_block_cases
    (environment : gmap string value) (rawNodeEnv : value)
    (k : string) (spec : Spec) :
  (try_block environment rawNodeEnv k spec
   = ([], Throw (EnvMissingError (formatSpecDescription spec)))
   ∧ (rawValue environment rawNodeEnv k spec = testOnlySymbol
      ∨ (rawValue environment rawNodeEnv k spec = VUndefined
         ∧ hasOwnProperty (spec_default spec) = false
         ∧ usingDevDefault rawNodeEnv spec = false)))
  ∨ (try_block environment rawNodeEnv k spec = ([], Ok None)
     ∧ rawValue environment rawNodeEnv k spec = VUndefined
     ∧ (hasOwnProperty (spec_default spec) = true
        ∨ usingDevDefault rawNodeEnv spec = true))
  ∨ (try_block environment rawNodeEnv k spec
     = validated (validateVar k spec (rawValue environment rawNodeEnv k spec))
     ∧ rawValue environment rawNodeEnv k spec ≠ VUndefined
     ∧ rawValue environment rawNodeEnv k spec ≠ testOnlySymbol).
Proof. apply try_block_trichotomy. Qed.

(** A spec with a [devDefault] and no [default] is required in
    production: when the key is absent it fails as missing there, without
    a parser call, while outside production the dev-default is validated
    in place of the missing value. *)
Theorem devDefault_alone_is_required_in_production
    (environment : gmap string value) (k : string) (spec : Spec) (d : value) :
  environment !! k = None →
  spec_default spec = None →
  spec_devDefault spec = Some d →
  (readRawEnvValue environment "NODE_ENV" = VStr "production" →
   try_block environment (readRawEnvValue environment "NODE_ENV") k spec
   = ([], Throw (EnvMissingError (formatSpecDescription spec))))
  ∧ (readRawEnvValue environment "NODE_ENV" ≠ VStr "production" →
     d ≠ VUndefined → d ≠ testOnlySymbol →
     try_block environment (readRawEnvValue environment "NODE_ENV") k spec
     = validated (validateVar k spec d)).
Proof.
  intros Hk Hdef Hdev. split.
  - intros ->. unfold try_block, usingFalsyDefault.
    rewrite rawValue_production, (readRawEnvValue_absent _ _ Hk), Hdef. done.
  - intros Hmode Hu Hs.
    pose proof (rawValue_devDefault environment k spec _ d Hmode Hk Hdev Hu)
      as Hraw.
    rewrite try_block_validates; rewrite Hraw; [done| |done].
    destruct (isTestOnlySymbol d) eqn:E; [|done].
    by apply strict_eq_sound in E.
Qed.

Lemma devDefault_alone_is_required_in_production_witness :
  try_block Samples.production (VStr "production") "SECRET"
    MoreSamples.dev_only
  = ([], Throw (EnvMissingError "undefined"))
  ∧ try_block Samples.development (VStr "development") "SECRET"
      MoreSamples.dev_only
    = ([EvParse "SECRET" (VStr "dev-secret")], Ok (Some (VStr "dev-secret"))).
Proof.
  split.
  - destruct (devDefault_alone_is_required_in_production Samples.production
                "SECRET" MoreSamples.dev_only (VStr "dev-secret"))
      as [H _]; [reflexivity..|].
    apply (H eq_refl).
  - destruct (devDefault_alone_is_required_in_production Samples.development
                "SECRET" MoreSamples.dev_only (VStr "dev-secret"))
      as [_ H]; [reflexivity..|].
    apply H; discriminate.
Defined.

(** When the environment holds a value for a key (anything but [null]
    and [undefined]), neither the mode nor the declared defaults play a
    part: the iteration does what it does for the spec stripped of its
    defaults in any mode, and unless the value is the test-only symbol,
    that is to validate the value. *)
Theorem explicit_value_ignores_defaults
    (environment : gmap string value) (rawNodeEnv rawNodeEnv' : value)
    (k : string) (spec : Spec) (v : value) :
  environment !! k = Some v →
  is_nullish v = false →
  try_block environment rawNodeEnv k spec
  = try_block environment rawNodeEnv' k (without_defaults spec)
  ∧ (v ≠ testOnlySymbol →
     try_block environment rawNodeEnv k spec
     = validated (validateVar k spec v)).
Proof.
  intros Hk Hv.
  pose proof (rawValue_explicit environment k spec rawNodeEnv v Hk Hv) as Hraw.
  pose proof (rawValue_explicit environment k (without_defaults spec)
                rawNodeEnv' v Hk Hv) as Hraw'.
  assert (v ≠ VUndefined) as Hu by (by intros ->).
  split.
  - unfold try_block. rewrite Hraw, Hraw'.
    destruct (isTestOnlySymbol v); [done|].
    by rewrite (strict_eq_undefined_false _ Hu).
  - intros Hs. rewrite try_block_validates; rewrite Hraw; [done| |done].
    destruct (isTestOnlySymbol v) eqn:E; [|done].
    by apply strict_eq_sound in E.
Qed.

Lemma explicit_value_ignores_defaults_witness :
  try_block (<["PORT" := VStr "1"]> Samples.production) (VStr "production")
    "PORT" Samples.port_spec
  = ([EvParse "PORT" (VStr "1")], Ok (Some (VNum "1"))).
Proof.
  destruct (explicit_value_ignores_defaults
              (<["PORT" := VStr "1"]> Samples.production)
              (VStr "production") VUndefined "PORT" Samples.port_spec
              (VStr "1")) as [_ H]; [reflexivity..|].
  rewrite H; [reflexivity|discriminate].
Defined.

(** A spec whose [default] is [testOnly v] is required outside test
    mode: with the key absent and no dev-default in use, the iteration
    fails as missing without a parser call when the process is not in
    test mode, and takes [v] as the raw value when it is. *)
Theorem testOnly_default_is_required_outside_test
    (process_env : gmap string string) (v : value)
    (environment : gmap string value) (rawNodeEnv : value)
    (k : string) (spec : Spec) :
  spec_default spec = Some (testOnly process_env v) →
  devDefault rawNodeEnv spec = VUndefined →
  environment !! k = None →
  (process_env !! "NODE_ENV" ≠ Some "test" →
   try_block environment rawNodeEnv k spec
   = ([], Throw (EnvMissingError (formatSpecDescription spec))))
  ∧ (process_env !! "NODE_ENV" = Some "test" →
     rawValue environment rawNodeEnv k spec = v).
Proof.
  intros Hdef Hdev Hk.
  assert (rawValue environment rawNodeEnv k spec = testOnly process_env v)
    as Hraw.
  { unfold rawValue. by rewrite (readRawEnvValue_absent _ _ Hk), Hdev, Hdef. }
  split; intros Hmode.
  - apply try_block_sentinel. rewrite Hraw. unfold testOnly.
    by rewrite bool_decide_eq_false_2.
  - rewrite Hraw. unfold testOnly. by rewrite bool_decide_eq_true_2.
Qed.

Lemma testOnly_default_is_required_outside_test_witness :
  try_block ∅ VUndefined "API_KEY"
    (MoreSamples.stubbed {["NODE_ENV" := "development"]})
  = ([], Throw (EnvMissingError "undefined"))
  ∧ rawValue ∅ VUndefined "API_KEY"
      (MoreSamples.stubbed {["NODE_ENV" := "test"]}) = VStr "stub".
Proof.
  split.
  - destruct (testOnly_default_is_required_outside_test
                {["NODE_ENV" := "development"]} (VStr "stub") ∅ VUndefined
                "API_KEY" (MoreSamples.stubbed {["NODE_ENV" := "development"]}))
      as [H _]; [reflexivity..|].
    apply H. discriminate.
  - destruct (testOnly_default_is_required_outside_test
                {["NODE_ENV" := "test"]} (VStr "stub") ∅ VUndefined
                "API_KEY" (MoreSamples.stubbed {["NODE_ENV" := "test"]}))
      as [_ H]; [reflexivity..|].
    apply H. reflexivity.
Defined.

(** ** Where the entries of the two maps come from *)

Lemma validated_Ok_inv (r : list event * result value) (v : value) :
  (validated r).2 = Ok (Some v) → r.2 = Ok v.
Proof. destruct r as [tr [v'|e]]; simpl; congruence. Qed.

Lemma validated_Throw_inv (r : list event * result value) (e : error) :
  (validated r).2 = Throw e → r.2 = Throw e.
Proof. destruct r as [tr [v'|e']]; simpl; congruence. Qed.

Lemma validated_trace (r : list event * result value) :
  (validated r).1 = r.1.
Proof. by destruct r as [tr [v'|e']]. Qed.

Lemma loop_provenance (options : CleanOptions)
    (environment : gmap string value) (rawNodeEnv : value)
    (specs : list (string * Spec)) :
  ∀ output errs tr output' errs',
    validation_loop options environment rawNodeEnv specs output errs
    = (tr, Ok (output', errs')) →
    (∀ k v, output' !! k = Some v →
       output !! k = Some v
       ∨ ∃ spec, (k, spec) ∈ specs
                 ∧ (try_block environment rawNodeEnv k spec).2 = Ok (Some v))
    ∧ (∀ k e, errs' !! k = Some e →
         errs !! k = Some e
         ∨ (reporter_is_null options = false
            ∧ ∃ spec, (k, spec) ∈ specs
                      ∧ (try_block environment rawNodeEnv k spec).2 = Throw e)).
Proof.
  induction specs as [|[k0 spec0] rest IH];
    intros output errs tr output' errs' Hloop.
  - simpl in Hloop. simplify_eq. split; intros; by left.
  - destruct (try_block environment rawNodeEnv k0 spec0)
      as [tr0 [[v0|]|e0]] eqn:Hbody.
    + rewrite (loop_assign _ _ _ _ _ _ _ _ _ _ Hbody) in Hloop.
      destruct (validation_loop _ _ _ rest _ _) as [tr1 r] eqn:Hrest.
      simpl in Hloop. simplify_eq.
      destruct (IH _ _ _ _ _ Hrest) as [Hout Herr]. split.
      * intros k v Hv.
        destruct (Hout k v Hv) as [Hins | (spec & Hin & Hb)].
        -- destruct (decide (k0 = k)) as [<- | Hne].
           ++ rewrite lookup_insert_eq in Hins. simplify_eq.
              right. exists spec0. split; [by left|]. by rewrite Hbody.
           ++ left. by rewrite lookup_insert_ne in Hins.
        -- right. exists spec. split; [by right|done].
      * intros k e He.
        destruct (Herr k e He) as [? | (? & spec & Hin & Hb)]; [by left|].
        right. split; [done|]. exists spec. split; [by right|done].
    + rewrite (loop_skip _ _ _ _ _ _ _ _ _ Hbody) in Hloop.
      destruct (validation_loop _ _ _ rest _ _) as [tr1 r] eqn:Hrest.
      simpl in Hloop. simplify_eq.
      destruct (IH _ _ _ _ _ Hrest) as [Hout Herr]. split.
      * intros k v Hv.
        destruct (Hout k v Hv) as [? | (spec & Hin & Hb)]; [by left|].
        right. exists spec. split; [by right|done].
      * intros k e He.
        destruct (Herr k e He) as [? | (? & spec & Hin & Hb)]; [by left|].
        right. split; [done|]. exists spec. split; [by right|done].
    + destruct (reporter_is_null options) eqn:Hrep.
      { rewrite (loop_rethrow _ _ _ _ _ _ _ _ _ _ Hbody Hrep) in Hloop.
        by simplify_eq. }
      rewrite (loop_catch _ _ _ _ _ _ _ _ _ _ Hbody Hrep) in Hloop.
      destruct (validation_loop _ _ _ rest _ _) as [tr1 r] eqn:Hrest.
      simpl in Hloop. simplify_eq.
      destruct (IH _ _ _ _ _ Hrest) as [Hout Herr]. split.
      * intros k v Hv.
        destruct (Hout k v Hv) as [? | (spec & Hin & Hb)]; [by left|].
        right. exists spec. split; [by right|done].
      * intros k e He.
        destruct (Herr k e He) as [Hins | (? & spec & Hin & Hb)].
        -- destruct (decide (k0 = k)) as [<- | Hne].
           ++ rewrite lookup_insert_eq in Hins. simplify_eq.
              right. split; [done|]. exists spec0.
              split; [by left|]. by rewrite Hbody.
           ++ left. by rewrite lookup_insert_ne in Hins.
        -- right. split; [done|]. exists spec. split; [by right|done].
Qed.

(** Whenever the loop completes, with any reporter option, every entry of
    the validated output is the value that the parser of a declared spec
    of that key returned for the key's raw value; it is never [null] or
    [undefined], and it passed that spec's choices. *)
Theorem output_holds_validated_values
    (options : CleanOptions) (environment : gmap string value)
    (rawNodeEnv : value) (specs : list (string * Spec))
    (tr : list event) (output : gmap string value) (errs : gmap string error) :
  validation_loop options environment rawNodeEnv specs ∅ ∅
  = (tr, Ok (output, errs)) →
  ∀ k v, output !! k = Some v →
    is_nullish v = false
    ∧ ∃ spec f,
        (k, spec) ∈ specs
        ∧ spec_parse spec = Function f
        ∧ f (rawValue environment rawNodeEnv k spec) = Ok v
        ∧ choices_accept (spec_choices spec) v = true.
Proof.
  intros Hloop k v Hv.
  destruct (loop_provenance _ _ _ _ _ _ _ _ _ Hloop) as [Hout _].
  destruct (Hout k v Hv) as [Hempty | (spec & Hin & Hbody)].
  { by rewrite lookup_empty in Hempty. }
  destruct (try_block_trichotomy environment rawNodeEnv k spec)
    as [[Htry _] | [[Htry _] | [Htry _]]];
    rewrite Htry in Hbody; [done..|].
  apply validated_Ok_inv in Hbody.
  destruct (validateVar k spec (rawValue environment rawNodeEnv k spec))
    as [tr' r] eqn:Hval. simpl in Hbody. subst r.
  destruct (validateVar_Ok_inv _ _ _ _ _ Hval)
    as (_ & (f & Hf & Hfv) & Hnull & Hacc & _).
  split; [done|]. by exists spec, f.
Qed.

Lemma output_holds_validated_values_witness :
  is_nullish (VNum "1") = false
  ∧ ∃ spec f,
      ("PORT", spec) ∈ Samples.service_specs
      ∧ spec_parse spec = Function f
      ∧ f (rawValue Samples.service_env VUndefined "PORT" spec) = Ok (VNum "1")
      ∧ choices_accept (spec_choices spec) (VNum "1") = true.
Proof.
  assert (validation_loop Samples.quiet Samples.service_env VUndefined
            Samples.service_specs ∅ ∅
          = ([EvParse "HOST" (VStr "localhost"); EvParse "PORT" (VStr "1")],
             Ok (<["HOST" := VStr "localhost"]> {["PORT" := VNum "1"]},
                 {["API_KEY" := EnvMissingError "undefined"]}))) as Hloop
    by reflexivity.
  apply (output_holds_validated_values _ _ _ _ _ _ _ Hloop "PORT" (VNum "1")).
  reflexivity.
Defined.

(** Whenever the loop completes, every entry of the error map belongs to
    a declared key and a reporter option that is not [null], and holds
    either the missing-value error built from that key's spec or the
    error that [validateVar] threw for the key's raw value. *)
Theorem errors_hold_failures_of_declared_keys
    (options : CleanOptions) (environment : gmap string value)
    (rawNodeEnv : value) (specs : list (string * Spec))
    (tr : list event) (output : gmap string value) (errs : gmap string error) :
  validation_loop options environment rawNodeEnv specs ∅ ∅
  = (tr, Ok (output, errs)) →
  ∀ k e, errs !! k = Some e →
    reporter options ≠ ReporterNull
    ∧ ∃ spec,
        (k, spec) ∈ specs
        ∧ (e = EnvMissingError (formatSpecDescription spec)
           ∨ (validateVar k spec (rawValue environment rawNodeEnv k spec)).2
             = Throw e).
Proof.
  intros Hloop k e He.
  destruct (loop_provenance _ _ _ _ _ _ _ _ _ Hloop) as [_ Herr].
  destruct (Herr k e He) as [Hempty | (Hrep & spec & Hin & Hbody)].
  { by rewrite lookup_empty in Hempty. }
  split.
  { intros Hnull. unfold reporter_is_null in Hrep. by rewrite Hnull in Hrep. }
  exists spec. split; [done|].
  destruct (try_block_trichotomy environment rawNodeEnv k spec)
    as [[Htry _] | [[Htry _] | [Htry _]]]; rewrite Htry in Hbody.
  - left. simpl in Hbody. congruence.
  - done.
  - right. by apply validated_Throw_inv.
Qed.

Lemma errors_hold_failures_of_declared_keys_witness :
  reporter Samples.quiet ≠ ReporterNull
  ∧ ∃ spec,
      ("API_KEY", spec) ∈ Samples.service_specs
      ∧ (EnvMissingError "undefined"
         = EnvMissingError (formatSpecDescription spec)
         ∨ (validateVar "API_KEY" spec
              (rawValue Samples.service_env VUndefined "API_KEY" spec)).2
           = Throw (EnvMissingError "undefined")).
Proof.
  assert (validation_loop Samples.quiet Samples.service_env VUndefined
            Samples.service_specs ∅ ∅
          = ([EvParse "HOST" (VStr "localhost"); EvParse "PORT" (VStr "1")],
             Ok (<["HOST" := VStr "localhost"]> {["PORT" := VNum "1"]},
                 {["API_KEY" := EnvMissingError "undefined"]}))) as Hloop
    by reflexivity.
  apply (errors_hold_failures_of_declared_keys _ _ _ _ _ _ _ Hloop
           "API_KEY" (EnvMissingError "undefined")).
  reflexivity.
Defined.

(** ** The parser calls of the loop *)

Lemma try_block_trace (environment : gmap string value) (rawNodeEnv : value)
    (k : string) (spec : Spec) :
  (try_block environment rawNodeEnv k spec).1 = []
  ∨ ((try_block environment rawNodeEnv k spec).1
     = [parse_event environment rawNodeEnv (k, spec)]
     ∧ rawValue environment rawNodeEnv k spec ≠ VUndefined
     ∧ rawValue environment rawNodeEnv k spec ≠ testOnlySymbol
     ∧ ∃ f, spec_parse spec = Function f).
Proof.
  destruct (try_block_trichotomy environment rawNodeEnv k spec)
    as [[Htry _] | [[Htry _] | (Htry & Hu & Hs)]]; rewrite Htry;
    [by left | by left |].
  rewrite validated_trace. unfold validateVar.
  destruct (spec_parse spec) as [x|f] eqn:Hparse; [by left|right].
  split; [|split; [done|split; [done|by exists f]]].
  destruct (f _) as [v|e]; [|done].
  destruct (if choices_truthy (spec_choices spec) then _ else _); [|done].
  by destruct (is_nullish v).
Qed.

Lemma loop_parser_calls (options : CleanOptions)
    (environment : gmap string value) (rawNodeEnv : value)
    (specs : list (string * Spec)) :
  ∀ output errs,
    ∃ called,
      sublist called specs
      ∧ (validation_loop options environment rawNodeEnv specs output errs).1
        = parse_event environment rawNodeEnv <$> called
      ∧ Forall (λ ks, rawValue environment rawNodeEnv ks.1 ks.2 ≠ VUndefined
                      ∧ rawValue environment rawNodeEnv ks.1 ks.2
                        ≠ testOnlySymbol
                      ∧ ∃ f, spec_parse ks.2 = Function f) called.
Proof.
  induction specs as [|[k spec] rest IH]; intros output errs.
  { exists []. by repeat split. }
  set (fed := λ ks : string * Spec,
         rawValue environment rawNodeEnv ks.1 ks.2 ≠ VUndefined
         ∧ rawValue environment rawNodeEnv ks.1 ks.2 ≠ testOnlySymbol
         ∧ ∃ f, spec_parse ks.2 = Function f) in *.
  assert (∀ tr0 tr1 : list event,
            (∃ called, sublist called rest
                       ∧ tr1 = parse_event environment rawNodeEnv <$> called
                       ∧ Forall fed called) →
            (try_block environment rawNodeEnv k spec).1 = tr0 →
            ∃ called, sublist called ((k, spec) :: rest)
                      ∧ tr0 ++ tr1
                        = parse_event environment rawNodeEnv <$> called
                      ∧ Forall fed called) as Hstep.
  { intros tr0 tr1 (called & Hsub & Htr & Hall) Htr0.
    destruct (try_block_trace environment rawNodeEnv k spec)
      as [Hnil | (Hone & Hu & Hs & Hf)]; rewrite Htr0 in *.
    - exists called. rewrite Hnil. split; [by apply sublist_cons|done].
    - exists ((k, spec) :: called). rewrite Hone, Htr.
      split; [by apply sublist_skip|]. split; [done|]. by constructor. }
  simpl. destruct (try_block environment rawNodeEnv k spec)
    as [tr0 [[v|]|e]] eqn:Hbody.
  - specialize (IH (<[k := v]> output) errs).
    destruct (validation_loop _ _ _ rest _ _) as [tr1 r1].
    by apply Hstep.
  - specialize (IH output errs).
    destruct (validation_loop _ _ _ rest _ _) as [tr1 r1].
    by apply Hstep.
  - destruct (reporter_is_null options).
    + destruct (Hstep tr0 []) as (called & Hsub & Htr & Hall); [|done|].
      { exists []. split; [apply sublist_nil_l|done]. }
      exists called. rewrite app_nil_r in Htr. done.
    + specialize (IH output (<[k := e]> errs)).
      destruct (validation_loop _ _ _ rest _ _) as [tr1 r1].
      by apply Hstep.
Qed.

(** Whatever the options and however the loop ends, its log is the
    parser calls of some of the declared entries, in declared order and
    at most one per entry, each on the raw value of its key; a parser is
    never handed [undefined] or the test-only symbol, and only a [_parse]
    that is a function is called. *)
Theorem parsers_are_called_in_declared_order
    (options : CleanOptions) (environment : gmap string value)
    (rawNodeEnv : value) (specs : list (string * Spec))
    (output : gmap string value) (errs : gmap string error) :
  ∃ called,
    sublist called specs
    ∧ (validation_loop options environment rawNodeEnv specs output errs).1
      = parse_event environment rawNodeEnv <$> called
    ∧ Forall (λ ks, rawValue environment rawNodeEnv ks.1 ks.2 ≠ VUndefined
                    ∧ rawValue environment rawNodeEnv ks.1 ks.2
                      ≠ testOnlySymbol
                    ∧ ∃ f, spec_parse ks.2 = Function f) called.
Proof. apply loop_parser_calls. Qed.

(** ** What the loop reads of the environment *)

Lemma rawValue_explicit_value (environment : gmap string value)
    (rawNodeEnv : value) (k : string) (spec : Spec) :
  rawValue environment rawNodeEnv k spec
  = nullish_coalesce (explicit_value environment k)
      (if strict_eq (devDefault rawNodeEnv spec) VUndefined
       then prop (spec_default spec)
       else devDefault rawNodeEnv spec).
Proof.
  unfold rawValue, explicit_value, nullish_coalesce.
  by destruct (readRawEnvValue environment k).
Qed.

Lemma try_block_same_value (env1 env2 : gmap string value)
    (rawNodeEnv : value) (k : string) (spec : Spec) :
  explicit_value env1 k = explicit_value env2 k →
  try_block env1 rawNodeEnv k spec = try_block env2 rawNodeEnv k spec.
Proof.
  intros Heq.
  assert (rawValue env1 rawNodeEnv k spec = rawValue env2 rawNodeEnv k spec)
    as Hraw by (by rewrite !rawValue_explicit_value, Heq).
  unfold try_block, usingFalsyDefault. by rewrite Hraw.
Qed.

Lemma loop_same_values (options : CleanOptions) (env1 env2 : gmap string value)
    (rawNodeEnv : value) (specs : list (string * Spec)) :
  (∀ k, k ∈ specs.*1 → explicit_value env1 k = explicit_value env2 k) →
  ∀ output errs,
    validation_loop options env1 rawNodeEnv specs output errs
    = validation_loop options env2 rawNodeEnv specs output errs.
Proof.
  induction specs as [|[k spec] rest IH]; intros Hagree output errs; [done|].
  simpl. rewrite (try_block_same_value env1 env2 rawNodeEnv k spec).
  2: { apply Hagree. rewrite fmap_cons. by left. }
  assert (∀ o e, validation_loop options env1 rawNodeEnv rest o e
                 = validation_loop options env2 rawNodeEnv rest o e) as Hrest.
  { apply IH. intros k' Hk'. apply Hagree. rewrite fmap_cons. by right. }
  destruct (try_block env2 rawNodeEnv k spec) as [tr0 [[v|]|e]];
    by rewrite ?Hrest.
Qed.

(** Variables that no spec declares cannot influence [cleanEnv] unless a
    middleware stage reads them: with options that carry no middleware,
    two environments that give the same mode and the same value for every
    declared key, [null] counting as absent, give the same log and the
    same outcome. *)
Theorem undeclared_variables_are_not_read
    (defaultReporter : Reporter) (defaultMiddlewares : list Middleware)
    (env1 env2 : gmap string value) (specs : list (string * Spec))
    (options : CleanOptions) :
  middleware options = None →
  readRawEnvValue env1 "NODE_ENV" = readRawEnvValue env2 "NODE_ENV" →
  (∀ k, k ∈ specs.*1 → explicit_value env1 k = explicit_value env2 k) →
  cleanEnv defaultReporter defaultMiddlewares env1 specs (Some options)
  = cleanEnv defaultReporter defaultMiddlewares env2 specs (Some options).
Proof.
  intros Hmw Hmode Hagree. unfold cleanEnv, apply_middleware. simpl.
  rewrite Hmw, Hmode.
  by rewrite (loop_same_values options env1 env2 _ specs Hagree).
Qed.

Lemma undeclared_variables_are_not_read_witness :
  cleanEnv Samples.contract_reporter Samples.catalog MoreSamples.noisy_env
    Samples.service_specs (Some Samples.quiet)
  = cleanEnv Samples.contract_reporter Samples.catalog Samples.service_env
      Samples.service_specs (Some Samples.quiet).
Proof.
  apply (undeclared_variables_are_not_read Samples.contract_reporter
           Samples.catalog MoreSamples.noisy_env Samples.service_env
           Samples.service_specs Samples.quiet).
  - reflexivity.
  - reflexivity.
  - intros k Hk. apply list_elem_of_In in Hk.
    destruct Hk as [<- | [<- | [<- | []]]]; reflexivity.
Defined.

(** ** The reporter call *)

Lemma apply_middleware_reduce (options : CleanOptions)
    (environment output : gmap string value) :
  apply_middleware options environment output
  = reduce_middleware 0 (default [] (middleware options)) environment output.
Proof. unfold apply_middleware. by destruct (middleware options) as [[|??]|]. Qed.

Lemma reduce_middleware_only_stages (mws : list Middleware)
    (environment : gmap string value) :
  ∀ stage acc,
    Forall (λ ev, is_middleware_event ev = true)
      (reduce_middleware stage mws environment acc).1.
Proof.
  induction mws as [|mw rest IH]; intros stage acc; [by constructor|].
  simpl. destruct (mw acc environment) as [acc'|e].
  - specialize (IH (S stage) acc').
    destruct (reduce_middleware _ rest _ _). simpl in *. by constructor.
  - by repeat constructor.
Qed.

Lemma cleanEnv_after_loop
    (defaultReporter : Reporter) (defaultMiddlewares : list Middleware)
    (environment : gmap string value) (specs : list (string * Spec))
    (opts : option CleanOptions)
    (tr : list event) (output : gmap string value) (errs : gmap string error) :
  validation_loop (default (default_options defaultMiddlewares) opts)
    environment (readRawEnvValue environment "NODE_ENV") specs ∅ ∅
  = (tr, Ok (output, errs)) →
  cleanEnv defaultReporter defaultMiddlewares environment specs opts
  = match
      (chosen_reporter defaultReporter
         (default (default_options defaultMiddlewares) opts)).2
        {| errors := errs; env := output |}
    with
    | Throws e =>
        (tr ++ [EvReport
                  (chosen_reporter defaultReporter
                     (default (default_options defaultMiddlewares) opts)).1
                  errs output],
         Raised e)
    | Exits code =>
        (tr ++ [EvReport
                  (chosen_reporter defaultReporter
                     (default (default_options defaultMiddlewares) opts)).1
                  errs output],
         Exited code)
    | Returns =>
        (tr ++ EvReport
                 (chosen_reporter defaultReporter
                    (default (default_options defaultMiddlewares) opts)).1
                 errs output
            :: (reduce_middleware 0
                  (default []
                     (middleware
                        (default (default_options defaultMiddlewares) opts)))
                  environment output).1,
         frozen_result
           (pipeline
              (default []
                 (middleware
                    (default (default_options defaultMiddlewares) opts)))
              environment output))
    end.
Proof.
  intros Hloop. unfold cleanEnv. simpl. rewrite Hloop.
  destruct (chosen_reporter defaultReporter _) as [who report]. simpl.
  destruct (report _); [|done..].
  rewrite apply_middleware_reduce.
  rewrite <- (reduce_middleware_result environment _ 0 output).
  destruct (reduce_middleware 0 _ environment output) as [tr' [o|e]];
    simpl; by rewrite <- app_assoc.
Qed.

(** Whenever the loop completes, with any options or none, exactly one
    reporter call is made: right after the loop and before any
    middleware stage, with the error map and the output of the loop; it
    is the custom reporter when [options.reporter] is a function and the
    default reporter otherwise. *)
Theorem reporter_is_called_once_after_the_loop
    (defaultReporter : Reporter) (defaultMiddlewares : list Middleware)
    (environment : gmap string value) (specs : list (string * Spec))
    (opts : option CleanOptions)
    (tr : list event) (output : gmap string value) (errs : gmap string error) :
  validation_loop (default (default_options defaultMiddlewares) opts)
    environment (readRawEnvValue environment "NODE_ENV") specs ∅ ∅
  = (tr, Ok (output, errs)) →
  ∃ who tr_mw,
    (cleanEnv defaultReporter defaultMiddlewares environment specs opts).1
    = tr ++ EvReport who errs output :: tr_mw
    ∧ Forall (λ ev, is_report ev = false) tr
    ∧ Forall (λ ev, is_middleware_event ev = true) tr_mw
    ∧ (who = CustomReporter
       ↔ ∃ f, reporter (default (default_options defaultMiddlewares) opts)
              = ReporterFunction f).
Proof.
  intros Hloop.
  pose proof (loop_events_not_report
                (default (default_options defaultMiddlewares) opts)
                environment (readRawEnvValue environment "NODE_ENV")
                specs ∅ ∅) as Hev.
  rewrite Hloop in Hev. simpl in Hev.
  rewrite (cleanEnv_after_loop _ _ _ _ _ _ _ _ Hloop).
  exists (chosen_reporter defaultReporter
            (default (default_options defaultMiddlewares) opts)).1.
  assert ((chosen_reporter defaultReporter
             (default (default_options defaultMiddlewares) opts)).1
          = CustomReporter
          ↔ ∃ f, reporter (default (default_options defaultMiddlewares) opts)
                 = ReporterFunction f) as Hwho.
  { unfold chosen_reporter.
    destruct (reporter _) as [| |f]; simpl; split; try done;
      try (by intros [??]). by exists f. }
  destruct ((chosen_reporter defaultReporter
               (default (default_options defaultMiddlewares) opts)).2
              {| errors := errs; env := output |}).
  - eexists. split; [done|]. split; [done|]. split; [|done].
    apply reduce_middleware_only_stages.
  - exists []. split; [done|]. split; [done|]. split; [by constructor|done].
  - exists []. split; [done|]. split; [done|]. split; [by constructor|done].
Qed.

Lemma reporter_is_called_once_after_the_loop_witness :
  ∃ who tr_mw,
    (cleanEnv Samples.contract_reporter Samples.catalog Samples.production
       [] (Some Samples.two_stages)).1
    = [] ++ EvReport who ∅ ∅ :: tr_mw
    ∧ Forall (λ ev, is_report ev = false) []
    ∧ Forall (λ ev, is_middleware_event ev = true) tr_mw
    ∧ (who = CustomReporter
       ↔ ∃ f, reporter Samples.two_stages = ReporterFunction f).
Proof.
  apply (reporter_is_called_once_after_the_loop Samples.contract_reporter
           Samples.catalog Samples.production [] (Some Samples.two_stages)
           [] ∅ ∅).
  reflexivity.
Defined.

(** ** More on middleware *)

Lemma pipeline_app (environment : gmap string value)
    (m1 m2 : list Middleware) :
  ∀ acc,
    pipeline (m1 ++ m2) environment acc
    = match pipeline m1 environment acc with
      | Ok acc' => pipeline m2 environment acc'
      | Throw e => Throw e
      end.
Proof.
  induction m1 as [|mw m1 IH]; intros acc; [done|].
  rewrite <- app_comm_cons, !pipeline_cons.
  destruct (mw acc environment) as [acc'|e]; [apply IH|done].
Qed.

Lemma reduce_middleware_app (environment : gmap string value)
    (m1 m2 : list Middleware) :
  ∀ stage acc,
    reduce_middleware stage (m1 ++ m2) environment acc
    = match reduce_middleware stage m1 environment acc with
      | (tr, Ok acc') =>
          (tr ++ (reduce_middleware (stage + length m1) m2 environment acc').1,
           (reduce_middleware (stage + length m1) m2 environment acc').2)
      | (tr, Throw e) => (tr, Throw e)
      end.
Proof.
  induction m1 as [|mw m1 IH]; intros stage acc.
  - simpl. rewrite Nat.add_0_r. by destruct (reduce_middleware stage m2 _ _).
  - rewrite <- app_comm_cons. simpl.
    destruct (mw acc environment) as [acc'|e]; [|done].
    rewrite (IH (S stage) acc').
    destruct (reduce_middleware (S stage) m1 environment acc')
      as [tr [acc''|e]]; [|done].
    by replace (S stage + length m1) with (stage + S (length m1)) by lia.
Qed.

(** A stage that throws ends the reduction: the stages before it have
    run, the stages after it are not called, whatever they are, and the
    reduction throws what the stage threw. *)
Theorem throwing_stage_ends_the_pipeline
    (environment : gmap string value) (stage : nat)
    (pre post : list Middleware) (mw : Middleware)
    (acc0 acc : gmap string value) (e : error) :
  pipeline pre environment acc0 = Ok acc →
  mw acc environment = Throw e →
  reduce_middleware stage (pre ++ mw :: post) environment acc0
  = ((reduce_middleware stage pre environment acc0).1
       ++ [EvMiddleware (stage + length pre) acc environment],
     Throw e)
  ∧ length (reduce_middleware stage (pre ++ mw :: post) environment acc0).1
    = S (length pre).
Proof.
  intros Hpre Hmw.
  pose proof (reduce_middleware_result environment pre stage acc0) as Hres.
  pose proof (reduce_middleware_length environment pre stage acc0) as [_ Hlen].
  rewrite Hpre in Hres, Hlen. specialize (Hlen eq_refl).
  rewrite reduce_middleware_app.
  destruct (reduce_middleware stage pre environment acc0) as [tr r].
  simpl in *. subst r. simpl. rewrite Hmw. simpl.
  split; [done|]. rewrite length_app, Hlen. simpl. lia.
Qed.

Lemma throwing_stage_ends_the_pipeline_witness :
  reduce_middleware 0 MoreSamples.broken_pipeline Samples.production ∅
  = ([EvMiddleware 0 ∅ Samples.production;
      EvMiddleware 1 {["SEEN" := VStr "production"]} Samples.production],
     Throw (Thrown (VStr "stage failed"))).
Proof.
  destruct (throwing_stage_ends_the_pipeline Samples.production 0
              [Samples.tag_mode] [Samples.accessors] MoreSamples.failing_stage
              ∅ {["SEEN" := VStr "production"]}
              (Thrown (VStr "stage failed"))) as [H _];
    [reflexivity | reflexivity |].
  exact H.
Defined.

Lemma validation_loop_reporter_only (o1 o2 : CleanOptions)
    (environment : gmap string value) (rawNodeEnv : value)
    (specs : list (string * Spec)) :
  reporter o1 = reporter o2 →
  ∀ output errs,
    validation_loop o1 environment rawNodeEnv specs output errs
    = validation_loop o2 environment rawNodeEnv specs output errs.
Proof.
  intros Hrep.
  assert (reporter_is_null o1 = reporter_is_null o2) as Hnull.
  { unfold reporter_is_null. by rewrite Hrep. }
  induction specs as [|[k spec] rest IH]; intros output errs; [done|].
  simpl. rewrite Hnull.
  destruct (try_block environment rawNodeEnv k spec) as [tr [[v|]|e]];
    by rewrite ?IH.
Qed.

(** Middleware sequences compose: running [cleanEnv] with the sequence
    [m1 ++ m2] ends like running it with [m1] and then, when that returns
    an object, handing the object's properties to the stages of [m2] and
    freezing what they return; when the run with [m1] throws or ends the
    process, so does the run with [m1 ++ m2]. *)
Theorem middleware_sequences_compose
    (defaultReporter : Reporter) (defaultMiddlewares : list Middleware)
    (environment : gmap string value) (specs : list (string * Spec))
    (rep : reporter_field) (m1 m2 : list Middleware) :
  (cleanEnv defaultReporter defaultMiddlewares environment specs
     (Some {| reporter := rep; middleware := Some (m1 ++ m2) |})).2
  = match
      (cleanEnv defaultReporter defaultMiddlewares environment specs
         (Some {| reporter := rep; middleware := Some m1 |})).2
    with
    | Returned obj => frozen_result (pipeline m2 environment (props obj))
    | Raised e => Raised e
    | Exited code => Exited code
    end.
Proof.
  set (o12 := {| reporter := rep; middleware := Some (m1 ++ m2) |}).
  set (o1 := {| reporter := rep; middleware := Some m1 |}).
  pose proof (validation_loop_reporter_only o12 o1 environment
                (readRawEnvValue environment "NODE_ENV") specs eq_refl ∅ ∅)
    as Hsame.
  destruct (validation_loop o1 environment _ specs ∅ ∅)
    as [tr [[output errs]|e]] eqn:Hloop1.
  - rewrite (cleanEnv_after_loop _ _ _ _ (Some o12) _ _ _ Hsame).
    rewrite (cleanEnv_after_loop _ _ _ _ (Some o1) _ _ _ Hloop1).
    unfold chosen_reporter. simpl.
    destruct (match rep with
              | ReporterFunction f => (CustomReporter, f)
              | _ => (DefaultReporter, defaultReporter)
              end) as [who report]. simpl.
    destruct (report _); [|done..]. simpl.
    rewrite pipeline_app. by destruct (pipeline m1 environment output).
  - unfold cleanEnv. simpl. fold o12 o1. by rewrite Hsame, Hloop1.
Qed.

(** ** The call without options *)

(** Called with no options, as [example/env.js] calls it, [cleanEnv]
    never throws a validation error itself: the loop visits every
    declared key and collects the failures, the default reporter is
    handed both maps, and the call ends the way the default reporter
    does, or, when it returns, with the frozen result of the default
    middleware stages. *)
Theorem cleanEnv_without_options
    (defaultReporter : Reporter) (defaultMiddlewares : list Middleware)
    (environment : gmap string value) (specs : list (string * Spec)) :
  ∃ output errs,
    validation_loop (default_options defaultMiddlewares) environment
      (readRawEnvValue environment "NODE_ENV") specs ∅ ∅
    = (flat_map (key_events environment
                   (readRawEnvValue environment "NODE_ENV")) specs,
       Ok (output, errs))
    ∧ (cleanEnv defaultReporter defaultMiddlewares environment specs None).2
      = match defaultReporter {| errors := errs; env := output |} with
        | Throws e => Raised e
        | Exits code => Exited code
        | Returns =>
            frozen_result (pipeline defaultMiddlewares environment output)
        end
    ∧ List.filter is_report
        (cleanEnv defaultReporter defaultMiddlewares environment specs None).1
      = [EvReport DefaultReporter errs output].
Proof.
  destruct (loop_total (default_options defaultMiddlewares) environment
              (readRawEnvValue environment "NODE_ENV") specs eq_refl ∅ ∅)
    as (output & errs & Hloop).
  exists output, errs. split; [done|].
  pose proof (loop_events_not_report (default_options defaultMiddlewares)
                environment (readRawEnvValue environment "NODE_ENV")
                specs ∅ ∅) as Hev.
  rewrite Hloop in Hev. simpl in Hev.
  rewrite (cleanEnv_after_loop _ _ _ _ None _ _ _ Hloop). simpl.
  destruct (defaultReporter _); simpl.
  - split; [done|]. rewrite List.filter_app, (filter_no_report _ Hev). simpl.
    by rewrite (filter_no_report _
                  (reduce_middleware_events defaultMiddlewares environment
                     0 output)).
  - split; [done|]. by rewrite List.filter_app, (filter_no_report _ Hev).
  - split; [done|]. by rewrite List.filter_app, (filter_no_report _ Hev).
Qed.

(** ** The keys of the returned object *)

(** With options that carry no middleware, the returned object has own
    properties for declared keys only: a key that no spec declares is not
    one of its own properties, whatever the environment holds under it,
    and reading it gives what the prototype holds under that name. *)
Theorem only_declared_keys_are_returned
    (defaultReporter : Reporter) (defaultMiddlewares : list Middleware)
    (environment : gmap string value) (specs : list (string * Spec))
    (options : CleanOptions) (tr : list event) (obj : jsobject) :
  default [] (middleware options) = [] →
  cleanEnv defaultReporter defaultMiddlewares environment specs (Some options)
  = (tr, Returned obj) →
  ∀ k, k ∉ specs.*1 →
    props obj !! k = None
    ∧ ∀ inherited, get inherited obj k = prop (inherited !! k).
Proof.
  intros Hmw Hclean k Hk.
  assert (props obj !! k = None) as Hown.
  { destruct (validation_loop options environment
                (readRawEnvValue environment "NODE_ENV") specs ∅ ∅)
      as [tr0 [[output errs]|e]] eqn:Hloop.
    - rewrite (cleanEnv_after_loop _ _ _ _ (Some options) _ _ _ Hloop)
        in Hclean.
      simpl in Hclean. rewrite Hmw in Hclean.
      destruct ((chosen_reporter defaultReporter options).2
                  {| errors := errs; env := output |}); [|done..].
      simpl in Hclean. injection Hclean as _ <-.
      destruct (loop_frame _ _ _ _ _ _ _ _ _ Hloop k Hk) as [Hout _].
      simpl. by rewrite Hout, lookup_empty.
    - unfold cleanEnv in Hclean. simpl in Hclean.
      by rewrite Hloop in Hclean. }
  split; [done|]. intros inherited. unfold get. by rewrite Hown.
Qed.

Lemma only_declared_keys_are_returned_witness :
  props (Object_freeze
           (<["API_KEY" := VStr "k"]>
              (<["HOST" := VStr "localhost"]> {["PORT" := VNum "1"]})))
    !! "HOME" = None
  ∧ ∀ inherited,
      get inherited
        (Object_freeze
           (<["API_KEY" := VStr "k"]>
              (<["HOST" := VStr "localhost"]> {["PORT" := VNum "1"]})))
        "HOME"
      = prop (inherited !! "HOME").
Proof.
  apply (only_declared_keys_are_returned Samples.contract_reporter
           Samples.catalog
           (<["API_KEY" := VStr "k"]> MoreSamples.noisy_env)
           Samples.service_specs Samples.quiet
           [EvParse "HOST" (VStr "localhost"); EvParse "API_KEY" (VStr "k");
            EvParse "PORT" (VStr "1");
            EvReport CustomReporter ∅
              (<["API_KEY" := VStr "k"]>
                 (<["HOST" := VStr "localhost"]> {["PORT" := VNum "1"]}))]).
  - reflexivity.
  - reflexivity.
  - compute_done.
Defined.

(** ** The message of a missing value *)

Lemma string_app_nil_r (s : string) : s +:+ "" = s.
Proof.
  induction s as [|c s IH]; [done|].
  change (String c (s +:+ "") = String c s). by rewrite IH.
Qed.

Lemma string_app_nil_inv (a b : string) : a +:+ b = "" → a = "" ∧ b = "".
Proof. by destruct a. Qed.

(** The message for a missing value starts with the description (the
    text [undefined] when the spec has none) and is that text alone
    exactly when the spec has neither an example nor a docs link, an
    empty string counting as none. *)
Theorem formatSpecDescription_shows_example_and_docs (spec : Spec) :
  (∃ rest, formatSpecDescription spec
           = default "undefined" (spec_desc spec) +:+ rest)
  ∧ (formatSpecDescription spec = default "undefined" (spec_desc spec)
     ↔ blank (spec_example spec) = true ∧ blank (spec_docs spec) = true).
Proof.
  unfold formatSpecDescription, blank. split; [by eexists|].
  split.
  - intros Heq. rewrite <- (string_app_nil_r (default _ _)) in Heq at 2.
    apply (inj (String.app _)) in Heq.
    apply string_app_nil_inv in Heq as [Heg Hdocs].
    destruct (spec_example spec) as [e|], (spec_docs spec) as [d|];
      try destruct (String.eqb e ""); try destruct (String.eqb d ""); done.
  - intros [Heg Hdocs].
    destruct (spec_example spec) as [e|], (spec_docs spec) as [d|];
      rewrite ?Heg, ?Hdocs; simpl; by rewrite string_app_nil_r.
Qed.

(** ** What declared order and [reporter: null] change *)

Lemma loop_without_failures (o1 o2 : CleanOptions)
    (environment : gmap string value) (rawNodeEnv : value)
    (specs : list (string * Spec)) :
  Forall (λ ks, is_Throw (try_block environment rawNodeEnv ks.1 ks.2).2
                = false) specs →
  ∀ output errs,
    validation_loop o1 environment rawNodeEnv specs output errs
    = validation_loop o2 environment rawNodeEnv specs output errs.
Proof.
  induction 1 as [|[k spec] rest Hhead _ IH]; intros output errs; [done|].
  simpl in *.
  destruct (try_block environment rawNodeEnv k spec) as [tr [[v|]|e]];
    [by rewrite IH..|done].
Qed.

(** On an environment in which no declared key fails, [reporter: null]
    changes nothing: [cleanEnv] does exactly what it does with the same
    options and no reporter, default reporter call included. *)
Theorem null_reporter_is_silent_on_valid_input
    (defaultReporter : Reporter) (defaultMiddlewares : list Middleware)
    (environment : gmap string value) (specs : list (string * Spec))
    (mws : option (list Middleware)) :
  (∀ k spec, (k, spec) ∈ specs →
     is_Throw (try_block environment
                 (readRawEnvValue environment "NODE_ENV") k spec).2 = false) →
  cleanEnv defaultReporter defaultMiddlewares environment specs
    (Some {| reporter := ReporterNull; middleware := mws |})
  = cleanEnv defaultReporter defaultMiddlewares environment specs
      (Some {| reporter := ReporterUndefined; middleware := mws |}).
Proof.
  intros Hvalid. unfold cleanEnv. simpl.
  rewrite (loop_without_failures
             {| reporter := ReporterNull; middleware := mws |}
             {| reporter := ReporterUndefined; middleware := mws |}).
  - done.
  - apply Forall_forall. intros [k spec] Hin. by apply Hvalid.
Qed.

Lemma null_reporter_is_silent_on_valid_input_witness :
  cleanEnv Samples.contract_reporter Samples.catalog
    (<["API_KEY" := VStr "k"]> Samples.service_env) Samples.service_specs
    (Some {| reporter := ReporterNull; middleware := None |})
  = cleanEnv Samples.contract_reporter Samples.catalog
      (<["API_KEY" := VStr "k"]> Samples.service_env) Samples.service_specs
      (Some {| reporter := ReporterUndefined; middleware := None |}).
Proof.
  apply (null_reporter_is_silent_on_valid_input Samples.contract_reporter
           Samples.catalog (<["API_KEY" := VStr "k"]> Samples.service_env)
           Samples.service_specs None).
  intros k spec Hin. apply list_elem_of_In in Hin.
  destruct Hin as [[= <- <-] | [[= <- <-] | [[= <- <-] | []]]]; reflexivity.
Defined.

(** With a reporter that is not [null], the order in which the keys are
    declared decides the order of the log only: two declarations of the
    same keys with the same specs in different orders give the same
    output and the same error map. *)
Theorem declared_order_does_not_change_the_maps
    (options : CleanOptions) (environment : gmap string value)
    (rawNodeEnv : value) (specs1 specs2 : list (string * Spec)) :
  reporter options ≠ ReporterNull →
  NoDup specs1.*1 →
  specs1 ≡ₚ specs2 →
  (validation_loop options environment rawNodeEnv specs1 ∅ ∅).2
  = (validation_loop options environment rawNodeEnv specs2 ∅ ∅).2.
Proof.
  intros Hrep Hnd1 Hperm.
  assert (NoDup specs2.*1) as Hnd2 by (by rewrite <- Hperm).
  assert (reporter_is_null options = false) as Hnull.
  { unfold reporter_is_null. by destruct (reporter options). }
  destruct (loop_total options environment rawNodeEnv specs1 Hnull ∅ ∅)
    as (out1 & errs1 & Hloop1).
  destruct (loop_total options environment rawNodeEnv specs2 Hnull ∅ ∅)
    as (out2 & errs2 & Hloop2).
  rewrite Hloop1, Hloop2. simpl.
  assert (∀ k, out1 !! k = out2 !! k ∧ errs1 !! k = errs2 !! k) as Hsame.
  { intros k. destruct (decide (k ∈ specs1.*1)) as [Hin | Hout].
    - apply list_elem_of_fmap in Hin as ([k' spec] & -> & Hin). simpl.
      pose proof (loop_settles _ _ _ _ _ _ _ _ _ Hnd1 Hloop1 k' spec Hin)
        as Hs1.
      rewrite Hperm in Hin.
      pose proof (loop_settles _ _ _ _ _ _ _ _ _ Hnd2 Hloop2 k' spec Hin)
        as Hs2.
      unfold settled in *.
      destruct ((try_block environment rawNodeEnv k' spec).2) as [[v|]|e];
        destruct Hs1 as [-> ->], Hs2 as [-> ->]; done.
    - destruct (loop_frame _ _ _ _ _ _ _ _ _ Hloop1 k Hout) as [-> ->].
      rewrite Hperm in Hout.
      destruct (loop_frame _ _ _ _ _ _ _ _ _ Hloop2 k Hout) as [-> ->].
      done. }
  f_equal. f_equal; apply map_eq; intros k; by destruct (Hsame k).
Qed.

Lemma declared_order_does_not_change_the_maps_witness :
  (validation_loop Samples.quiet Samples.service_env VUndefined
     Samples.service_specs ∅ ∅).2
  = (validation_loop Samples.quiet Samples.service_env VUndefined
       (reverse Samples.service_specs) ∅ ∅).2.
Proof.
  apply (declared_order_does_not_change_the_maps Samples.quiet
           Samples.service_env VUndefined Samples.service_specs
           (reverse Samples.service_specs)).
  - discriminate.
  - compute_done.
  - apply Permutation_sym, reverse_Permutation.
Defined.
